(** * Vitality Engine: the service layer, embedded and verified

    A shallow embedding of [app/services/chat_service.py],
    [app/services/document_service.py] and [app/services/metrics_service.py]
    together with the pydantic models of [app/models/].

    The services are effectful Python: they mutate two module-level lists,
    read the wall clock with [datetime.now()] and draw integers with
    [random.randint].  They are embedded in a state-and-exception monad
    [Py] over a [World] holding the two lists and the two oracles (the
    readings of the system clock and the draws of the generator). *)

From Stdlib Require Import ZArith List String Ascii Bool Lia Permutation Sorted.
From Stdlib Require Import Numbers.DecimalString Numbers.DecimalZ.
Import ListNotations.

Open Scope Z_scope.

(* ================================================================== *)
(** * The Python runtime the services rely on *)

Module Py.

(** Built-in exceptions that the embedded library calls can raise. *)
Inductive exn : Type :=
| OverflowError (msg : string)
| ValueError (msg : string).

(** The result of evaluating an expression: a value, or a raised exception. *)
Inductive outcome (A : Type) : Type :=
| Returns (a : A)
| Raises (e : exn).
Arguments Returns {A} a.
Arguments Raises {A} e.

Definition obind {A B} (o : outcome A) (k : A -> outcome B) : outcome B :=
  match o with
  | Returns a => k a
  | Raises e => Raises e
  end.

(** [str(n)] for an [int], which is also what an f-string field [{n}] prints. *)
Definition str (n : Z) : string := NilZero.string_of_int (Z.to_int n).

(** [len(l)], a Python [int]. *)
Definition len {A} (l : list A) : Z := Z.of_nat (List.length l).

(** [divmod(a, b)] on ints; Python's floor division is [Z.div] and [Z.modulo]. *)
Definition divmod (a b : Z) : Z * Z := (a / b, a mod b).

(** [s.zfill(width)]-style left padding with ['0'], as the [%m], [%d] and
    [%Y] directives of [strftime] print their numbers. *)
Fixpoint zeros (k : nat) : string :=
  match k with
  | O => EmptyString
  | S k' => String "0" (zeros k')
  end.

Definition zfill (width : nat) (s : string) : string :=
  (zeros (width - String.length s) ++ s)%string.

(** Lexicographic comparison of two int tuples, as Python compares tuples. *)
Fixpoint cmp_tuple (xs ys : list Z) : comparison :=
  match xs, ys with
  | [], [] => Eq
  | [], _ :: _ => Lt
  | _ :: _, [] => Gt
  | x :: xs', y :: ys' =>
      match x ?= y with
      | Eq => cmp_tuple xs' ys'
      | c => c
      end
  end.

End Py.
Export Py.

(* ================================================================== *)
(** * [datetime]: the part of the standard library the services call

    Modelled on CPython's reference implementation of the [datetime] module
    (proleptic Gregorian calendar, ordinals counted from 0001-01-01 = 1). *)

Module datetime.

Definition MINYEAR : Z := 1.
Definition MAXYEAR : Z := 9999.
Definition _MAXORDINAL : Z := 3652059.

(** The two tables are indexed by the month, 1 to 12; index 0 holds the
    placeholder [-1]. *)
Definition _DAYS_IN_MONTH (month : Z) : Z :=
  nth (Z.to_nat month) [-1; 31; 28; 31; 30; 31; 30; 31; 31; 30; 31; 30; 31] 0.

Definition _DAYS_BEFORE_MONTH (month : Z) : Z :=
  nth (Z.to_nat month) [-1; 0; 31; 59; 90; 120; 151; 181; 212; 243; 273; 304; 334] 0.

(** [year % 4 == 0 and (year % 100 != 0 or year % 400 == 0)] *)
Definition _is_leap (year : Z) : bool :=
  (year mod 4 =? 0) && (negb (year mod 100 =? 0) || (year mod 400 =? 0)).

(** Number of days before January 1st of [year]. *)
Definition _days_before_year (year : Z) : Z :=
  let y := year - 1 in
  y * 365 + y / 4 - y / 100 + y / 400.

Definition _days_in_month (year month : Z) : Z :=
  if (month =? 2) && _is_leap year then 29 else _DAYS_IN_MONTH month.

(** [_DAYS_BEFORE_MONTH[month] + (month > 2 and _is_leap(year))] *)
Definition _days_before_month (year month : Z) : Z :=
  _DAYS_BEFORE_MONTH month + (if (2 <? month) && _is_leap year then 1 else 0).

(** year, month, day -> ordinal, considering 01-Jan-0001 as day 1. *)
Definition _ymd2ord (year month day : Z) : Z :=
  _days_before_year year + _days_before_month year month + day.

Definition _DI400Y : Z := Eval cbv in _days_before_year 401.
Definition _DI100Y : Z := Eval cbv in _days_before_year 101.
Definition _DI4Y : Z := Eval cbv in _days_before_year 5.

(** ordinal -> (year, month, day), considering 01-Jan-0001 as day 1. *)
Definition _ord2ymd (n : Z) : Z * Z * Z :=
  let n := n - 1 in
  let '(n400, n) := divmod n _DI400Y in
  let year := n400 * 400 + 1 in
  let '(n100, n) := divmod n _DI100Y in
  let '(n4, n) := divmod n _DI4Y in
  let '(n1, n) := divmod n 365 in
  let year := year + (n100 * 100 + n4 * 4 + n1) in
  if (n1 =? 4) || (n100 =? 4) then (year - 1, 12, 31)
  else
    let leapyear := (n1 =? 3) && (negb (n4 =? 24) || (n100 =? 3)) in
    let month := Z.shiftr (n + 50) 5 in
    let preceding :=
      _DAYS_BEFORE_MONTH month + (if (2 <? month) && leapyear then 1 else 0) in
    let '(month, preceding) :=
      if n <? preceding
      then (month - 1,
            preceding - (_DAYS_IN_MONTH (month - 1)
                         + (if (month - 1 =? 2) && leapyear then 1 else 0)))
      else (month, preceding) in
    let n := n - preceding in
    (year, month, n + 1).

(** A naive [datetime] object (no [tzinfo]), as [datetime.now()] returns. *)
Record datetime : Type := {
  year : Z;
  month : Z;
  day : Z;
  hour : Z;
  minute : Z;
  second : Z;
  microsecond : Z
}.

(** A [timedelta], held normalised: [0 <= seconds < 86400] and
    [0 <= microseconds < 1000000]. *)
Record timedelta : Type := {
  days : Z;
  seconds : Z;
  microseconds : Z
}.

(** [timedelta(days, seconds, microseconds, minutes=.., hours=..)] on int
    arguments: carries are propagated upwards and the magnitude is checked. *)
Definition timedelta_new (days seconds microseconds minutes hours : Z)
  : outcome timedelta :=
  let '(carry_s, us) := divmod microseconds 1000000 in
  let s := hours * 3600 + minutes * 60 + seconds + carry_s in
  let '(carry_d, s) := divmod s (24 * 3600) in
  let d := days + carry_d in
  if 999999999 <? Z.abs d
  then Raises (OverflowError "timedelta # of days is too large")
  else Returns {| days := d; seconds := s; microseconds := us |}.

(** [-td] *)
Definition timedelta_neg (td : timedelta) : outcome timedelta :=
  timedelta_new (- days td) (- seconds td) (- microseconds td) 0 0.

(** [td1 + td2] *)
Definition timedelta_add (a b : timedelta) : outcome timedelta :=
  timedelta_new (days a + days b) (seconds a + seconds b)
                (microseconds a + microseconds b) 0 0.

(** [dt.toordinal()] *)
Definition toordinal (dt : datetime) : Z :=
  _ymd2ord (year dt) (month dt) (day dt).

(** [dt + td] *)
Definition datetime_add (self : datetime) (other : timedelta) : outcome datetime :=
  obind (timedelta_new (toordinal self) (second self) (microsecond self)
                       (minute self) (hour self)) (fun delta =>
  obind (timedelta_add delta other) (fun delta =>
  let '(hour, rem) := divmod (seconds delta) 3600 in
  let '(minute, second) := divmod rem 60 in
  if (0 <? days delta) && (days delta <=? _MAXORDINAL)
  then
    let '(y, m, d) := _ord2ymd (days delta) in
    Returns {| year := y; month := m; day := d;
               hour := hour; minute := minute; second := second;
               microsecond := microseconds delta |}
  else Raises (OverflowError "result out of range"))).

(** [dt - td], which CPython evaluates as [dt + -td]. *)
Definition datetime_sub (self : datetime) (other : timedelta) : outcome datetime :=
  obind (timedelta_neg other) (fun neg => datetime_add self neg).

(** One directive of [strftime]: [%Y] is the year padded to four digits,
    [%m], [%d], [%H], [%M], [%S] are padded to two. *)
Definition directive (dt : datetime) (c : ascii) : string :=
  if Ascii.eqb c "Y" then zfill 4 (str (year dt))
  else if Ascii.eqb c "m" then zfill 2 (str (month dt))
  else if Ascii.eqb c "d" then zfill 2 (str (day dt))
  else if Ascii.eqb c "H" then zfill 2 (str (hour dt))
  else if Ascii.eqb c "M" then zfill 2 (str (minute dt))
  else if Ascii.eqb c "S" then zfill 2 (str (second dt))
  else if Ascii.eqb c "%" then "%"
  else String "%" (String c EmptyString).

(** [dt.strftime(fmt)] *)
Fixpoint strftime (dt : datetime) (fmt : string) : string :=
  match fmt with
  | EmptyString => EmptyString
  | String c EmptyString => String c EmptyString
  | String c (String c' rest as tail) =>
      if Ascii.eqb c "%"
      then (directive dt c' ++ strftime dt rest)%string
      else String c (strftime dt tail)
  end.

(** The tuple Python compares two naive datetimes by. *)
Definition _getstate (dt : datetime) : list Z :=
  [year dt; month dt; day dt; hour dt; minute dt; second dt; microsecond dt].

(** [a <= b] *)
Definition datetime_le (a b : datetime) : bool :=
  match cmp_tuple (_getstate a) (_getstate b) with
  | Gt => false
  | _ => true
  end.

(** The class invariant of [datetime], checked by its constructor. *)
Definition valid (dt : datetime) : bool :=
  (MINYEAR <=? year dt) && (year dt <=? MAXYEAR)
  && (1 <=? month dt) && (month dt <=? 12)
  && (1 <=? day dt) && (day dt <=? _days_in_month (year dt) (month dt))
  && (0 <=? hour dt) && (hour dt <? 24)
  && (0 <=? minute dt) && (minute dt <? 60)
  && (0 <=? second dt) && (second dt <? 60)
  && (0 <=? microsecond dt) && (microsecond dt <? 1000000).

(** The calendar date of a datetime, as a (year, month, day) triple. *)
Definition date_of (dt : datetime) : Z * Z * Z := (year dt, month dt, day dt).

End datetime.
Export datetime.

(* ================================================================== *)
(** * The pydantic models of [app/models/] *)

(** [app/models/chat.py] *)
Module chat.

Record ChatMessageBase : Type := {
  content : string;
  sender : string
}.

(** [class ChatMessageCreate(ChatMessageBase): pass], the request body. *)
Definition ChatMessageCreate : Type := ChatMessageBase.

(** [class ChatMessage(ChatMessageBase)]: the inherited fields, [id] and
    [timestamp]; the stored and returned record. *)
Record ChatMessage : Type := {
  base :> ChatMessageBase;
  id : string;
  timestamp : datetime
}.

End chat.

(** [app/models/document.py] *)
Module document.

Record DocumentBase : Type := {
  title : string;
  content : string
}.

(** [class DocumentCreate(DocumentBase): pass], the request body. *)
Definition DocumentCreate : Type := DocumentBase.

(** [class Document(DocumentBase)] *)
Record Document : Type := {
  base :> DocumentBase;
  id : string;
  timestamp : datetime
}.

End document.

(** [app/models/metrics.py]: every field is declared [int] (or [str]) with
    no [Field] constraint and no validator. *)
Module metrics.

Record Metrics : Type := {
  recovery_score : Z;
  mobility_score : Z;
  pain_level : Z;
  exercises_completed : Z;
  streak_days : Z
}.

Record RecoveryDataPoint : Type := {
  date : string;
  score : Z
}.

End metrics.

(* ================================================================== *)
(** * The process state and the monad of service calls *)

(** Everything a service call can read or change: the two module-level
    lists, and the two sources of outside input.  [wall_clock k] is what the
    [k]-th call of [datetime.now()] in this process returns; [random_stream k n]
    is what the [k]-th draw of the generator returns when asked for an int
    below [n]. *)
Record World : Type := {
  chat_messages : list chat.ChatMessage;
  documents : list document.Document;
  wall_clock : nat -> datetime;
  clock_reads : nat;
  random_stream : nat -> Z -> Z;
  random_draws : nat
}.

Definition Py (A : Type) : Type := World -> outcome A * World.

Definition ret {A} (a : A) : Py A := fun w => (Returns a, w).

Definition raise {A} (e : exn) : Py A := fun w => (Raises e, w).

Definition bind {A B} (m : Py A) (k : A -> Py B) : Py B :=
  fun w =>
    match m w with
    | (Returns a, w') => k a w'
    | (Raises e, w') => (Raises e, w')
    end.

Notation "x <- m ;; k" := (bind m (fun x => k))
  (at level 61, m at next level, right associativity).
Notation "m ;;; k" := (bind m (fun _ => k))
  (at level 61, right associativity).

(** An exception of a pure library call propagates into the service. *)
Definition lift {A} (o : outcome A) : Py A := fun w => (o, w).

(** [for x in xs: acc = body(x, acc)] *)
Fixpoint for_each {A B} (xs : list A) (body : A -> B -> Py B) (acc : B) : Py B :=
  match xs with
  | [] => ret acc
  | x :: xs' => acc' <- body x acc ;; for_each xs' body acc'
  end.

(** [range(n)] *)
Definition range (n : nat) : list Z := map Z.of_nat (seq 0 n).

(** What [datetime.now()] returns when called in state [w]. *)
Definition current_time (w : World) : datetime := wall_clock w (clock_reads w).

(** [datetime.now()]: the next reading of the system clock. *)
Definition datetime_now : Py datetime :=
  fun w =>
    (Returns (current_time w),
     {| chat_messages := chat_messages w;
        documents := documents w;
        wall_clock := wall_clock w;
        clock_reads := S (clock_reads w);
        random_stream := random_stream w;
        random_draws := random_draws w |}).

(** [Random._randbelow(n)]: the next draw of the generator. *)
Definition _randbelow (n : Z) : Py Z :=
  fun w =>
    (Returns (random_stream w (random_draws w) n),
     {| chat_messages := chat_messages w;
        documents := documents w;
        wall_clock := wall_clock w;
        clock_reads := clock_reads w;
        random_stream := random_stream w;
        random_draws := S (random_draws w) |}).

(** [random.randrange(start, stop)] *)
Definition randrange (start stop : Z) : Py Z :=
  let width := stop - start in
  if 0 <? width
  then r <- _randbelow width ;; ret (start + r)
  else raise (ValueError "empty range for randrange()").

(** [random.randint(a, b)]: [return self.randrange(a, b+1)] *)
Definition randint (a b : Z) : Py Z := randrange a (b + 1).

(** The generator honours the contract of [_randbelow]: asked for an int
    below a positive [n], it returns one in [[0, n)]. *)
Definition rng_sound (w : World) : Prop :=
  forall k n, 0 < n -> 0 <= random_stream w k n < n.

(** The system clock never steps backwards. *)
Definition clock_monotone (w : World) : Prop :=
  forall i j, (i <= j)%nat -> datetime_le (wall_clock w i) (wall_clock w j) = true.

(* ================================================================== *)
(** * [app/services/chat_service.py] *)

Module chat_service.
Import chat.

(** [chat_messages.append(x)] *)
Definition chat_messages_append (x : ChatMessage) : Py unit :=
  fun w =>
    (Returns tt,
     {| chat_messages := chat_messages w ++ [x];
        documents := documents w;
        wall_clock := wall_clock w;
        clock_reads := clock_reads w;
        random_stream := random_stream w;
        random_draws := random_draws w |}).

(** [len(chat_messages)] *)
Definition chat_messages_len : Py Z := fun w => (Returns (len (chat_messages w)), w).

(** [def get_all_messages(): return chat_messages]: the caller gets the
    list itself, here its content at the time of the call. *)
Definition get_all_messages : Py (list ChatMessage) :=
  fun w => (Returns (chat_messages w), w).

(** [def create_message(message)]: the keyword arguments of the
    [ChatMessage(...)] call are evaluated left to right, the length of the
    list first and the clock last; then the record is appended and returned. *)
Definition create_message (message : ChatMessageCreate) : Py ChatMessage :=
  n <- chat_messages_len ;;
  now <- datetime_now ;;
  let new_message :=
    {| id := ("msg_" ++ str (n + 1))%string;
       base := {| content := content message; sender := sender message |};
       timestamp := now |} in
  chat_messages_append new_message ;;;
  ret new_message.

End chat_service.

(* ================================================================== *)
(** * [app/services/document_service.py] *)

Module document_service.
Import document.

(** [documents.append(x)] *)
Definition documents_append (x : Document) : Py unit :=
  fun w =>
    (Returns tt,
     {| chat_messages := chat_messages w;
        documents := documents w ++ [x];
        wall_clock := wall_clock w;
        clock_reads := clock_reads w;
        random_stream := random_stream w;
        random_draws := random_draws w |}).

(** [len(documents)] *)
Definition documents_len : Py Z := fun w => (Returns (len (documents w)), w).

(** [def get_all_documents(): return documents] *)
Definition get_all_documents : Py (list Document) :=
  fun w => (Returns (documents w), w).

(** [def create_document(document)] *)
Definition create_document (document : DocumentCreate) : Py Document :=
  n <- documents_len ;;
  now <- datetime_now ;;
  let new_document :=
    {| id := ("doc_" ++ str (n + 1))%string;
       base := {| title := title document; content := content document |};
       timestamp := now |} in
  documents_append new_document ;;;
  ret new_document.

End document_service.

(* ================================================================== *)
(** * [app/services/metrics_service.py] *)

Module metrics_service.
Import metrics.

(** [def get_metrics()]: five draws, in the order of the keyword arguments. *)
Definition get_metrics : Py Metrics :=
  r <- randint 70 95 ;;
  m <- randint 60 90 ;;
  p <- randint 1 5 ;;
  e <- randint 3 15 ;;
  s <- randint 1 10 ;;
  ret {| recovery_score := r;
         mobility_score := m;
         pain_level := p;
         exercises_completed := e;
         streak_days := s |}.

(** The body of the loop of [get_recovery_chart_data] for one [i]. *)
Definition chart_step (today : datetime) (i : Z) (data : list RecoveryDataPoint)
  : Py (list RecoveryDataPoint) :=
  delta <- lift (timedelta_new (6 - i) 0 0 0 0) ;;
  date <- lift (datetime_sub today delta) ;;
  s <- randint 65 95 ;;
  ret (data ++ [ {| date := strftime date "%Y-%m-%d"; score := s |} ]).

(** [def get_recovery_chart_data()] *)
Definition get_recovery_chart_data : Py (list RecoveryDataPoint) :=
  today <- datetime_now ;;
  let data := [] in
  for_each (range 7) (chart_step today) data.

End metrics_service.

(* ================================================================== *)
(** * [app/api/v1/endpoints/]: the six routes *)

Module api.

Inductive request : Type :=
| GET_metrics
| GET_recovery_chart
| GET_chat_messages
| POST_chat_messages (message : chat.ChatMessageCreate)
| GET_documents
| POST_documents (document : document.DocumentCreate).

Inductive response : Type :=
| MetricsBody (m : metrics.Metrics)
| ChartBody (data : list metrics.RecoveryDataPoint)
| MessagesBody (l : list chat.ChatMessage)
| MessageBody (m : chat.ChatMessage)
| DocumentsBody (l : list document.Document)
| DocumentBody (d : document.Document).

(** Each endpoint function returns what its service function returns. *)
Definition dispatch (r : request) : Py response :=
  match r with
  | GET_metrics => m <- metrics_service.get_metrics ;; ret (MetricsBody m)
  | GET_recovery_chart =>
      d <- metrics_service.get_recovery_chart_data ;; ret (ChartBody d)
  | GET_chat_messages => l <- chat_service.get_all_messages ;; ret (MessagesBody l)
  | POST_chat_messages message =>
      m <- chat_service.create_message message ;; ret (MessageBody m)
  | GET_documents => l <- document_service.get_all_documents ;; ret (DocumentsBody l)
  | POST_documents document =>
      d <- document_service.create_document document ;; ret (DocumentBody d)
  end.

(** The process state after serving a request. *)
Definition serve (r : request) (w : World) : World := snd (dispatch r w).

(** The states a process can be in: it starts with both lists empty and
    changes state only by serving requests, one after another. *)
Inductive reachable : World -> Prop :=
| reachable_start (w : World) :
    chat_messages w = [] -> documents w = [] -> reachable w
| reachable_serve (r : request) (w : World) :
    reachable w -> reachable (serve r w).

End api.

(* ================================================================== *)
(** * Vocabulary of the specification *)

Module spec.
Import metrics.

(** The day after a calendar date. *)
Definition next_day (d : Z * Z * Z) : Z * Z * Z :=
  let '(y, m, dd) := d in
  if dd <? _days_in_month y m then (y, m, dd + 1)
  else if m <? 12 then (y, m + 1, 1)
  else (y + 1, 1, 1).

(** A (year, month, day) triple that names a day of the calendar. *)
Definition is_date (d : Z * Z * Z) : Prop :=
  let '(y, m, dd) := d in
  1 <= m <= 12 /\ 1 <= dd <= _days_in_month y m.

(** Each date of the list is the day after the one before it. *)
Fixpoint consecutive_days (ds : list (Z * Z * Z)) : Prop :=
  match ds with
  | a :: (b :: _) as rest => next_day a = b /\ consecutive_days rest
  | _ => True
  end.

Definition digit (n : Z) : ascii := ascii_of_nat (48 + Z.to_nat (n mod 10)).

(** The text [YYYY-MM-DD] of a date. *)
Definition iso_date (d : Z * Z * Z) : string :=
  let '(y, m, dd) := d in
  String (digit (y / 1000)) (String (digit (y / 100)) (String (digit (y / 10))
  (String (digit y) (String "-" (String (digit (m / 10)) (String (digit m)
  (String "-" (String (digit (dd / 10)) (String (digit dd) EmptyString))))))))).

Definition is_digit (c : ascii) : bool :=
  (48 <=? nat_of_ascii c)%nat && (nat_of_ascii c <=? 57)%nat.

(** Ten characters: four digits, a dash, two digits, a dash, two digits. *)
Definition YYYY_MM_DD (s : string) : bool :=
  match list_ascii_of_string s with
  | [y1; y2; y3; y4; h1; m1; m2; h2; d1; d2] =>
      forallb is_digit [y1; y2; y3; y4; m1; m2; d1; d2]
      && Ascii.eqb h1 "-" && Ascii.eqb h2 "-"
  | _ => false
  end.

(** [prefix ++ "1"; ...; prefix ++ "N"] *)
Definition numbered_ids (prefix : string) (N : nat) : list string :=
  map (fun k => (prefix ++ str (Z.of_nat k))%string) (seq 1 N).

(** Two process states with the same content in both stores. *)
Definition same_stores (w w' : World) : Prop :=
  chat_messages w' = chat_messages w /\ documents w' = documents w.

(** A computation that leaves both stores as they are, whatever it returns. *)
Definition keeps_stores {A} (c : Py A) : Prop :=
  forall w, same_stores w (snd (c w)).

(** The documented interval of every field of [Metrics]. *)
Definition metrics_in_range (m : Metrics) : Prop :=
  70 <= recovery_score m <= 95 /\
  60 <= mobility_score m <= 90 /\
  1 <= pain_level m <= 5 /\
  3 <= exercises_completed m <= 15 /\
  1 <= streak_days m <= 10.

End spec.

(* ================================================================== *)
(** * Calls of [create_message] on several threads

    The endpoints are plain [def]s, which the framework runs on a thread
    pool.  Between evaluating [len(chat_messages)] (with the rest of the
    [ChatMessage(...)] expression) and executing [chat_messages.append],
    the interpreter may switch to another thread: a call is modelled as
    these two steps, each atomic. *)

Module threads.
Import chat chat_service.

Inductive call : Type :=
| Pending (message : ChatMessageCreate)
| Built (new_message : ChatMessage)
| Finished (result : ChatMessage).

(** One atomic step of a call. *)
Definition step (c : call) : Py call :=
  match c with
  | Pending message =>
      n <- chat_messages_len ;;
      now <- datetime_now ;;
      ret (Built {| id := ("msg_" ++ str (n + 1))%string;
                    base := {| content := content message;
                               sender := sender message |};
                    timestamp := now |})
  | Built new_message =>
      chat_messages_append new_message ;;; ret (Finished new_message)
  | Finished result => ret (Finished result)
  end.

Fixpoint update {A} (l : list A) (i : nat) (x : A) : list A :=
  match l, i with
  | [], _ => []
  | _ :: l', O => x :: l'
  | y :: l', S i' => y :: update l' i' x
  end.

(** Run the calls under a schedule: each entry names the call that takes
    the next step. *)
Fixpoint run (schedule : list nat) (calls : list call) (w : World)
  : list call * World :=
  match schedule with
  | [] => (calls, w)
  | t :: rest =>
      match nth_error calls t with
      | Some c =>
          match step c w with
          | (Returns c', w') => run rest (update calls t c') w'
          | (Raises _, w') => run rest calls w'
          end
      | None => run rest calls w
      end
  end.

Definition finished (c : call) : bool :=
  match c with
  | Finished _ => true
  | _ => false
  end.

(** A schedule under mutual exclusion: the calls run in some order, and
    the two steps of each call are taken back to back. *)
Definition exclusive (order : list nat) : list nat :=
  flat_map (fun t => [t; t]) order.

(** The safety property asked of concurrent appends: whatever the
    schedule, once all [N] calls have finished the store holds [N] messages
    whose ids are pairwise distinct and are ["msg_1"] to ["msg_N"] with none
    missing. *)
Definition concurrent_append_safe : Prop :=
  forall (messages : list ChatMessageCreate) (schedule : list nat) (w : World),
    chat_messages w = [] ->
    forallb finished (fst (run schedule (map Pending messages) w)) = true ->
    let ids := map id (chat_messages (snd (run schedule (map Pending messages) w))) in
    List.length ids = List.length messages
    /\ NoDup ids
    /\ forall k, (1 <= k <= List.length messages)%nat ->
                 In ("msg_" ++ str (Z.of_nat k))%string ids.

End threads.

(* ================================================================== *)
(** * Test drivers and sample data *)

Module sample.
Import chat document.

(** [for message in messages: create_message(message)] *)
Definition create_messages (messages : list ChatMessageCreate) : Py unit :=
  for_each messages (fun message _ => chat_service.create_message message ;;; ret tt) tt.

(** [for d in ds: create_document(d)] *)
Definition create_documents (ds : list DocumentCreate) : Py unit :=
  for_each ds (fun d _ => document_service.create_document d ;;; ret tt) tt.

Definition hi_alice : ChatMessageCreate :=
  {| chat.content := "hi"; chat.sender := "alice" |}.
Definition yo_bob : ChatMessageCreate :=
  {| chat.content := "yo"; chat.sender := "bob" |}.
Definition notes : DocumentCreate :=
  {| document.title := "notes"; document.content := "knee" |}.

(** A clock started on 2 March 2025, 09:26:53, ticking one millisecond per
    reading (and stuck at the end of that second). *)
Definition clock (k : nat) : datetime :=
  {| year := 2025; month := 3; day := 2;
     hour := 9; minute := 26; second := 53;
     microsecond := Z.min (Z.of_nat k * 1000) 999999 |}.

(** A generator: a fixed linear sequence, reduced below the bound. *)
Definition generator (k : nat) (n : Z) : Z := (Z.of_nat k * 7919 + 13) mod n.

(** A freshly started process. *)
Definition fresh : World :=
  {| chat_messages := [];
     documents := [];
     wall_clock := clock;
     clock_reads := 0;
     random_stream := generator;
     random_draws := 0 |}.

End sample.

(** Decidable facts about the calendar tables and the decimal printer,
    settled by evaluation in the proofs below. *)
Module checks.

Definition ymd_eqb (p q : Z * Z * Z) : bool :=
  let '(y, m, d) := p in
  let '(y', m', d') := q in
  (y =? y') && (m =? m') && (d =? d').

Definition from_to (lo : nat) (n : nat) : list Z := map Z.of_nat (seq lo n).

(** In year [y], every day of every month has its place in the year and is
    found again from its ordinal. *)
Definition year_ok (y : Z) : bool :=
  forallb (fun m =>
    forallb (fun d =>
      if d <=? _days_in_month y m
      then
        let r := _days_before_month y m + d - 1 in
        (0 <=? r) && (r <? 365 + (if _is_leap y then 1 else 0))
        && ymd_eqb (_ord2ymd (_ymd2ord y m d)) (y, m, d)
      else true) (from_to 1 31)) (from_to 1 12).

(** The two years every other year is compared with: 1 is a common year
    and 4 a leap year. *)
Definition model_year (y : Z) : Z := if _is_leap y then 4 else 1.

(** The months of a year follow one another without a gap. *)
Definition months_ok (y : Z) : bool :=
  forallb (fun m =>
    (1 <=? _days_in_month y m)
    && (_days_before_month y (m + 1) =? _days_before_month y m + _days_in_month y m))
    (from_to 1 11)
  && (_days_in_month y 12 =? 31) && (_days_before_month y 12 =? 334 +
       (if _is_leap y then 1 else 0)).

(** [width] digits, most significant first. *)
Fixpoint digits (width : nat) (n : Z) : string :=
  match width with
  | O => EmptyString
  | S w' => (digits w' (n / 10) ++ String (spec.digit n) EmptyString)%string
  end.

(** Every number below [bound] prints as exactly [width] digits once padded. *)
Definition padding_ok (width : nat) (bound : Z) : bool :=
  forallb (fun n => String.eqb (zfill width (str n)) (digits width n))
          (from_to 0 (Z.to_nat bound)).

End checks.

(* ================================================================== *)
(** * Runs of requests, replayed draws and bookkeeping of calls *)

Module scenarios.

(** The process state after serving the requests one after another. *)
Definition serve_all (rs : list api.request) (w : World) : World :=
  fold_left (fun w r => api.serve r w) rs w.

(** The bodies of the [POST /chat-messages/] requests, in request order. *)
Fixpoint posted_messages (rs : list api.request) : list chat.ChatMessageCreate :=
  match rs with
  | [] => []
  | api.POST_chat_messages message :: rs' => message :: posted_messages rs'
  | _ :: rs' => posted_messages rs'
  end.

(** The bodies of the [POST /documents/] requests, in request order. *)
Fixpoint posted_documents (rs : list api.request) : list document.DocumentCreate :=
  match rs with
  | [] => []
  | api.POST_documents d :: rs' => d :: posted_documents rs'
  | _ :: rs' => posted_documents rs'
  end.

(** A generator that replays a list of values: the [k]-th draw returns the
    [k]-th value when it is below the bound asked for, and 0 otherwise. *)
Definition replay (vals : list Z) (k : nat) (n : Z) : Z :=
  let v := nth k vals 0 in
  if (0 <=? v) && (v <? n) then v else 0.

(** The state [w] with its generator replaced and no draw taken yet. *)
Definition with_generator (w : World) (g : nat -> Z -> Z) : World :=
  {| chat_messages := chat_messages w;
     documents := documents w;
     wall_clock := wall_clock w;
     clock_reads := clock_reads w;
     random_stream := g;
     random_draws := 0 |}.

(** A computation that leaves the sequence of clock readings as it is and
    never un-reads a reading. *)
Definition keeps_clock {A} (c : Py A) : Prop :=
  forall w,
    wall_clock (snd (c w)) = wall_clock w
    /\ (clock_reads w <= clock_reads (snd (c w)))%nat.

(** The request body a call carries, at whatever step the call is. *)
Definition message_of (c : threads.call) : chat.ChatMessageCreate :=
  match c with
  | threads.Pending message => message
  | threads.Built m => chat.base m
  | threads.Finished m => chat.base m
  end.

(** The text of the [k]-th message id. *)
Definition msg_id (k : nat) : string := ("msg_" ++ str (Z.of_nat k))%string.

(** A process whose clock reads 3 January of year 1. *)
Definition early : World :=
  {| chat_messages := [];
     documents := [];
     wall_clock := fun _ =>
       {| year := 1; month := 1; day := 3;
          hour := 12; minute := 0; second := 0; microsecond := 0 |};
     clock_reads := 0;
     random_stream := sample.generator;
     random_draws := 0 |}.

(** A clock at the end of daylight saving time: the local time read at
    01:59:59.9 on 2 November 2025 is followed by 01:00:00 of the same day. *)
Definition fall_back_clock (k : nat) : datetime :=
  match k with
  | O => {| year := 2025; month := 11; day := 2;
            hour := 1; minute := 59; second := 59; microsecond := 900000 |}
  | S _ => {| year := 2025; month := 11; day := 2;
              hour := 1; minute := 0; second := 0; microsecond := 0 |}
  end.

(** A freshly started process with that clock. *)
Definition fall_back : World :=
  {| chat_messages := [];
     documents := [];
     wall_clock := fall_back_clock;
     clock_reads := 0;
     random_stream := sample.generator;
     random_draws := 0 |}.

End scenarios.

(* ================================================================== *)
(** * The calendar arithmetic of [datetime] *)

(** Known values: the Unix epoch is ordinal 719163, and the last day of the
    calendar is [_MAXORDINAL]. *)
Example epoch_ordinal : _ymd2ord 1970 1 1 = 719163.
Proof. reflexivity. Qed.

Example epoch_date : _ord2ymd 719163 = (1970, 1, 1).
Proof. reflexivity. Qed.

Example last_ordinal : _ymd2ord MAXYEAR 12 31 = _MAXORDINAL.
Proof. reflexivity. Qed.

Example leap_day_2024 : _ord2ymd (_ymd2ord 2024 3 1 - 1) = (2024, 2, 29).
Proof. reflexivity. Qed.

Example no_leap_day_1900 : _ord2ymd (_ymd2ord 1900 3 1 - 1) = (1900, 2, 28).
Proof. reflexivity. Qed.

Example end_of_leap_year : _ord2ymd (_ymd2ord 2001 1 1 - 1) = (2000, 12, 31).
Proof. reflexivity. Qed.

Lemma divmod_unique (n d q r : Z) :
  n = q * d + r -> 0 <= r < d -> divmod n d = (q, r).
Proof.
  intros Hn Hr. unfold divmod. f_equal.
  - symmetry. apply (Z.div_unique n d q r); lia.
  - symmetry. apply (Z.mod_unique n d q r); lia.
Qed.

(** A year counted from year 1, split along the cycles of the calendar. *)
Lemma year_cycles (y : Z) :
  exists a b c e,
    y - 1 = 400 * a + 100 * b + 4 * c + e /\
    0 <= b < 4 /\ 0 <= c < 25 /\ 0 <= e < 4.
Proof.
  exists ((y - 1) / 400), ((y - 1) mod 400 / 100),
         ((y - 1) mod 100 / 4), ((y - 1) mod 4).
  Z.div_mod_to_equations. lia.
Qed.

Lemma days_before_year_cycles (y a b c e : Z) :
  y - 1 = 400 * a + 100 * b + 4 * c + e ->
  0 <= b < 4 -> 0 <= c < 25 -> 0 <= e < 4 ->
  _days_before_year y = 146097 * a + 36524 * b + 1461 * c + 365 * e.
Proof.
  intros Hy Hb Hc He. unfold _days_before_year. cbv zeta.
  rewrite Hy.
  Z.div_mod_to_equations. lia.
Qed.

Lemma is_leap_cycles (y a b c e : Z) :
  y - 1 = 400 * a + 100 * b + 4 * c + e ->
  0 <= b < 4 -> 0 <= c < 25 -> 0 <= e < 4 ->
  _is_leap y = (e =? 3) && (negb (c =? 24) || (b =? 3)).
Proof.
  intros Hy Hb Hc He. unfold _is_leap.
  replace y with (400 * a + 100 * b + 4 * c + e + 1) by lia.
  destruct (Z.eqb_spec e 3), (Z.eqb_spec c 24), (Z.eqb_spec b 3);
  repeat match goal with
  | |- context [?x mod ?k =? 0] => destruct (Z.eqb_spec (x mod k) 0)
  end; cbn [andb orb negb]; try reflexivity; exfalso; Z.div_mod_to_equations; lia.
Qed.

Ltac divmod_is q r :=
  match goal with
  | |- context [divmod ?n ?d] =>
      rewrite (divmod_unique n d q r) by lia; cbv beta iota
  end.

Ltac decide_eqb :=
  repeat match goal with
  | |- context [Z.eqb ?x ?k] =>
      first [ replace (Z.eqb x k) with true by (symmetry; apply Z.eqb_eq; lia)
            | replace (Z.eqb x k) with false by (symmetry; apply Z.eqb_neq; lia) ]
  end.

(** The year that [_ord2ymd] finds, and the day of the year it goes on
    with, for the [r]-th day (from 0) of year [y]. *)
Lemma ord2ymd_in_year (y r : Z) :
  0 <= r < 365 + (if _is_leap y then 1 else 0) ->
  let y0 := if _is_leap y then 4 else 1 in
  _ord2ymd (_days_before_year y + r + 1) =
  let '(y', m, d) := _ord2ymd (_days_before_year y0 + r + 1) in
  (y + (y' - y0), m, d).
Proof.
  destruct (year_cycles y) as (a & b & c & e & Hy & Hb & Hc & He).
  rewrite (days_before_year_cycles y a b c e Hy Hb Hc He).
  rewrite (is_leap_cycles y a b c e Hy Hb Hc He).
  intros Hr y0. subst y0.
  assert (Hyear : y = 400 * a + 100 * b + 4 * c + e + 1) by lia.
  unfold _ord2ymd, _DI400Y, _DI100Y, _DI4Y.
  destruct (Z.eqb_spec e 3) as [He3 | He3];
  destruct (Z.eqb_spec c 24) as [Hc24 | Hc24];
  destruct (Z.eqb_spec b 3) as [Hb3 | Hb3];
  cbn [andb orb negb] in *;
  change (_days_before_year 4) with 1095;
  change (_days_before_year 1) with 0.
  all: destruct (Z.eq_dec r 365) as [Hr365 | Hr365].
  all: try lia.
  all: repeat first
    [ divmod_is a (36524 * b + 1461 * c + 365 * e + r)
    | divmod_is b (1461 * c + 365 * e + r)
    | divmod_is c (365 * e + r)
    | divmod_is e r
    | divmod_is 4 0
    | divmod_is 0 0
    | divmod_is 0 (1095 + r)
    | divmod_is 3 r
    | divmod_is 0 r ].
  all: decide_eqb; cbn [andb orb negb]; cbv beta iota.
  all: try match goal with
       | |- context [if ?r <? ?p then _ else _] => destruct (r <? p)
       end.
  all: repeat match goal with |- (_, _) = (_, _) => f_equal end; lia.
Qed.

Lemma in_from_to (lo k : nat) (n : Z) :
  Z.of_nat lo <= n < Z.of_nat lo + Z.of_nat k -> In n (checks.from_to lo k).
Proof.
  intros Hn. unfold checks.from_to.
  replace n with (Z.of_nat (Z.to_nat n)) by lia.
  apply in_map, in_seq. lia.
Qed.

Lemma model_year_leap (y : Z) : _is_leap (checks.model_year y) = _is_leap y.
Proof. unfold checks.model_year. destruct (_is_leap y); reflexivity. Qed.

Lemma model_year_ok (y : Z) : checks.year_ok (checks.model_year y) = true.
Proof. unfold checks.model_year. destruct (_is_leap y); vm_compute; reflexivity. Qed.

Lemma model_months_ok (y : Z) : checks.months_ok (checks.model_year y) = true.
Proof. unfold checks.model_year. destruct (_is_leap y); vm_compute; reflexivity. Qed.

Lemma days_in_month_model (y m : Z) :
  _days_in_month (checks.model_year y) m = _days_in_month y m.
Proof. unfold _days_in_month. now rewrite model_year_leap. Qed.

Lemma days_before_month_model (y m : Z) :
  _days_before_month (checks.model_year y) m = _days_before_month y m.
Proof. unfold _days_before_month. now rewrite model_year_leap. Qed.

Lemma ymd_eqb_eq (p q : Z * Z * Z) : checks.ymd_eqb p q = true -> p = q.
Proof.
  destruct p as [[y m] d], q as [[y' m'] d']. unfold checks.ymd_eqb.
  rewrite !andb_true_iff, !Z.eqb_eq. intros [[-> ->] ->]. reflexivity.
Qed.

Lemma days_in_month_le_31 (y m : Z) : 1 <= m <= 12 -> _days_in_month y m <= 31.
Proof.
  intros Hm. unfold _days_in_month, _DAYS_IN_MONTH.
  destruct ((m =? 2) && _is_leap y); [lia|].
  assert (Hc : m = 1 \/ m = 2 \/ m = 3 \/ m = 4 \/ m = 5 \/ m = 6 \/ m = 7
               \/ m = 8 \/ m = 9 \/ m = 10 \/ m = 11 \/ m = 12) by lia.
  repeat (destruct Hc as [-> | Hc]; [simpl; lia|]).
  subst m. simpl. lia.
Qed.

(** What the check of the model year says about one day of year [y]. *)
Lemma day_of_year (y m d : Z) :
  spec.is_date (y, m, d) ->
  0 <= _days_before_month y m + d - 1 < 365 + (if _is_leap y then 1 else 0)
  /\ _ord2ymd (_ymd2ord (checks.model_year y) m d) = (checks.model_year y, m, d).
Proof.
  intros [Hm Hd].
  pose proof (model_year_ok y) as Hok. unfold checks.year_ok in Hok.
  rewrite forallb_forall in Hok.
  specialize (Hok m (in_from_to 1 12 m ltac:(simpl; lia))).
  rewrite forallb_forall in Hok.
  pose proof (days_in_month_le_31 y m Hm) as Hd31.
  specialize (Hok d (in_from_to 1 31 d ltac:(simpl; lia))).
  rewrite days_in_month_model, days_before_month_model, model_year_leap in Hok.
  replace (d <=? _days_in_month y m) with true in Hok
    by (symmetry; apply Z.leb_le; lia).
  rewrite !andb_true_iff, Z.leb_le, Z.ltb_lt in Hok.
  destruct Hok as [[H0 H1] H2]. apply ymd_eqb_eq in H2. auto.
Qed.

(** [_ord2ymd] undoes [_ymd2ord], in every year. *)
Lemma ord2ymd_ymd2ord (y m d : Z) :
  spec.is_date (y, m, d) -> _ord2ymd (_ymd2ord y m d) = (y, m, d).
Proof.
  intros Hdate. destruct (day_of_year y m d Hdate) as [Hr Hmodel].
  unfold _ymd2ord in *.
  replace (_days_before_year y + _days_before_month y m + d)
    with (_days_before_year y + (_days_before_month y m + d - 1) + 1) by lia.
  rewrite ord2ymd_in_year by exact Hr. cbv zeta. fold (checks.model_year y).
  replace (_days_before_year (checks.model_year y) + (_days_before_month y m + d - 1) + 1)
    with (_days_before_year (checks.model_year y)
          + _days_before_month (checks.model_year y) m + d)
    by (rewrite days_before_month_model; lia).
  rewrite Hmodel. f_equal. f_equal. lia.
Qed.

Lemma days_before_next_year (y : Z) :
  _days_before_year (y + 1)
  = _days_before_year y + 365 + (if _is_leap y then 1 else 0).
Proof.
  unfold _days_before_year, _is_leap. cbv zeta.
  replace (y + 1 - 1) with y by lia.
  repeat match goal with
  | |- context [?x mod ?k =? 0] => destruct (Z.eqb_spec (x mod k) 0)
  end; cbn [andb orb negb]; Z.div_mod_to_equations; lia.
Qed.

(** What the check of the model year says about the months of year [y]. *)
Lemma months_of_year (y m : Z) :
  1 <= m <= 12 ->
  1 <= _days_in_month y m
  /\ (m < 12 ->
      _days_before_month y (m + 1) = _days_before_month y m + _days_in_month y m)
  /\ (m = 12 ->
      _days_in_month y m = 31
      /\ _days_before_month y m = 334 + (if _is_leap y then 1 else 0)).
Proof.
  intros Hm.
  pose proof (model_months_ok y) as Hok. unfold checks.months_ok in Hok.
  rewrite !andb_true_iff, forallb_forall, !Z.eqb_eq in Hok.
  destruct Hok as [[Hmonths Hdec] Hbefore].
  rewrite days_in_month_model in Hdec.
  rewrite days_before_month_model, model_year_leap in Hbefore.
  destruct (Z.eq_dec m 12) as [-> | Hne].
  - repeat split; try lia.
  - specialize (Hmonths m (in_from_to 1 11 m ltac:(simpl; lia))).
    rewrite andb_true_iff, Z.leb_le, Z.eqb_eq in Hmonths.
    rewrite !days_in_month_model, !days_before_month_model in Hmonths.
    repeat split; try lia.
Qed.

(** The day after a date is a date, and its ordinal is the next one. *)
Lemma next_day_ordinal (y m d : Z) :
  spec.is_date (y, m, d) ->
  let '(y', m', d') := spec.next_day (y, m, d) in
  spec.is_date (y', m', d') /\ y <= y' /\ _ymd2ord y' m' d' = _ymd2ord y m d + 1.
Proof.
  intros [Hm Hd]. unfold spec.next_day.
  destruct (months_of_year y m Hm) as (Hpos & Hnext & Hdec).
  destruct (Z.ltb_spec d (_days_in_month y m)) as [Hlt | Hge].
  - unfold spec.is_date, _ymd2ord. repeat split; lia.
  - destruct (Z.ltb_spec m 12) as [Hm12 | Hm12].
    + destruct (months_of_year y (m + 1) ltac:(lia)) as (Hpos' & _).
      unfold spec.is_date, _ymd2ord. rewrite (Hnext Hm12). repeat split; lia.
    + assert (m = 12) as -> by lia. destruct (Hdec eq_refl) as [H31 Hb].
      unfold spec.is_date, _ymd2ord. rewrite days_before_next_year, Hb.
      change (_days_before_month (y + 1) 1) with 0.
      change (_days_in_month (y + 1) 1) with 31.
      repeat split; lia.
Qed.

(** From day 1 on, every ordinal is the ordinal of the date [_ord2ymd]
    returns for it, and that date is in year 1 or later. *)
Lemma ymd2ord_ord2ymd (k : Z) :
  1 <= k ->
  let '(y, m, d) := _ord2ymd k in
  spec.is_date (y, m, d) /\ 1 <= y /\ _ymd2ord y m d = k.
Proof.
  intros Hk. pattern k. apply (Zlt_lower_bound_ind _ 1); [|exact Hk].
  clear k Hk. intros k IH Hk.
  destruct (Z.eq_dec k 1) as [-> | Hne].
  - vm_compute. intuition discriminate.
  - specialize (IH (k - 1) ltac:(lia)).
    destruct (_ord2ymd (k - 1)) as [[y m] d] eqn:E.
    destruct IH as (Hdate & Hy & Hord).
    pose proof (next_day_ordinal y m d Hdate) as Hnext.
    destruct (spec.next_day (y, m, d)) as [[y' m'] d'].
    destruct Hnext as (Hdate' & Hyy & Hord').
    replace k with (_ymd2ord y' m' d') by lia.
    rewrite ord2ymd_ymd2ord by exact Hdate'.
    repeat split; try apply Hdate'; lia.
Qed.

(** Consecutive ordinals are consecutive days. *)
Lemma ord2ymd_succ (k : Z) :
  1 <= k -> _ord2ymd (k + 1) = spec.next_day (_ord2ymd k).
Proof.
  intros Hk. pose proof (ymd2ord_ord2ymd k Hk) as H.
  destruct (_ord2ymd k) as [[y m] d]. destruct H as (Hdate & Hy & Hord).
  pose proof (next_day_ordinal y m d Hdate) as Hnext.
  destruct (spec.next_day (y, m, d)) as [[y' m'] d'].
  destruct Hnext as (Hdate' & Hyy & Hord').
  rewrite <- Hord, <- Hord'. apply ord2ymd_ymd2ord. exact Hdate'.
Qed.

(** ** Datetimes *)

Lemma valid_fields (dt : datetime) :
  valid dt = true ->
  1 <= year dt <= 9999 /\ spec.is_date (date_of dt)
  /\ 0 <= hour dt < 24 /\ 0 <= minute dt < 60 /\ 0 <= second dt < 60
  /\ 0 <= microsecond dt < 1000000.
Proof.
  unfold valid, MINYEAR, MAXYEAR, date_of, spec.is_date.
  rewrite !andb_true_iff, !Z.leb_le, !Z.ltb_lt. lia.
Qed.

Lemma days_before_year_bounds (y : Z) :
  1 <= y <= 9999 ->
  0 <= _days_before_year y
  /\ _days_before_year y + 365 + (if _is_leap y then 1 else 0) <= _MAXORDINAL.
Proof.
  intros Hy. rewrite <- days_before_next_year.
  unfold _days_before_year, _MAXORDINAL. cbv zeta.
  Z.div_mod_to_equations. lia.
Qed.

Lemma toordinal_bounds (dt : datetime) :
  valid dt = true -> 1 <= toordinal dt <= _MAXORDINAL.
Proof.
  intros Hv. destruct (valid_fields dt Hv) as (Hy & Hdate & _).
  destruct (day_of_year _ _ _ Hdate) as [Hr _].
  pose proof (days_before_year_bounds _ Hy).
  unfold toordinal, _ymd2ord. lia.
Qed.

Lemma timedelta_new_normal (d s us mi h : Z) :
  Z.abs d <= 999999999 ->
  0 <= h * 3600 + mi * 60 + s < 86400 ->
  0 <= us < 1000000 ->
  timedelta_new d s us mi h
  = Returns {| days := d; seconds := h * 3600 + mi * 60 + s; microseconds := us |}.
Proof.
  intros Hd Hs Hus. unfold timedelta_new.
  rewrite (divmod_unique us 1000000 0 us) by lia.
  change (24 * 3600) with 86400.
  rewrite (divmod_unique (h * 3600 + mi * 60 + s + 0) 86400 0
             (h * 3600 + mi * 60 + s)) by lia.
  replace (999999999 <? Z.abs (d + 0)) with false
    by (symmetry; apply Z.ltb_ge; lia).
  f_equal. f_equal. lia.
Qed.

Lemma timedelta_days (k : Z) :
  Z.abs k <= 999999999 ->
  timedelta_new k 0 0 0 0
  = Returns {| days := k; seconds := 0; microseconds := 0 |}.
Proof. intros Hk. rewrite timedelta_new_normal by lia. reflexivity. Qed.

(** [today - timedelta(days=k)], while the result stays in the calendar:
    the date [k] ordinals earlier, at the same time of day. *)
Lemma datetime_sub_days (today : datetime) (k : Z) :
  valid today = true ->
  0 <= k < toordinal today ->
  datetime_sub today {| days := k; seconds := 0; microseconds := 0 |}
  = let '(y, m, d) := _ord2ymd (toordinal today - k) in
    Returns {| year := y; month := m; day := d;
               hour := hour today; minute := minute today;
               second := second today; microsecond := microsecond today |}.
Proof.
  intros Hv Hk. pose proof (toordinal_bounds today Hv) as Hord.
  destruct (valid_fields today Hv) as (_ & _ & Hh & Hmi & Hs & Hus).
  unfold _MAXORDINAL in Hord.
  unfold datetime_sub, timedelta_neg. cbn [days seconds microseconds].
  rewrite timedelta_new_normal by lia. cbn [obind].
  unfold datetime_add.
  rewrite (timedelta_new_normal (toordinal today)) by lia. cbn [obind].
  unfold timedelta_add. cbn [days seconds microseconds].
  rewrite timedelta_new_normal by lia.
  cbn [obind days seconds microseconds].
  rewrite (divmod_unique _ 3600 (hour today)
             (minute today * 60 + second today)) by lia.
  rewrite (divmod_unique _ 60 (minute today) (second today)) by lia.
  replace ((0 <? toordinal today + - k)
           && (toordinal today + - k <=? _MAXORDINAL)) with true
    by (symmetry; apply andb_true_iff; rewrite Z.ltb_lt, Z.leb_le;
        unfold _MAXORDINAL; lia).
  replace (toordinal today + - k) with (toordinal today - k) by lia.
  destruct (_ord2ymd (toordinal today - k)) as [[y m] d].
  f_equal. f_equal. lia.
Qed.

(** ** The text of a date *)

Lemma append_empty_r (s : string) : (s ++ "")%string = s.
Proof. induction s as [|c s IH]; simpl; [reflexivity | now rewrite IH]. Qed.

Lemma strftime_Ymd (dt : datetime) :
  strftime dt "%Y-%m-%d"
  = (zfill 4 (str (year dt)) ++ "-" ++ zfill 2 (str (month dt)) ++ "-"
     ++ zfill 2 (str (day dt)))%string.
Proof.
  rewrite <- (append_empty_r (zfill 2 (str (day dt)))). reflexivity.
Qed.

Lemma zfill_digits (width : nat) (bound n : Z) :
  checks.padding_ok width bound = true ->
  0 <= n < bound ->
  zfill width (str n) = checks.digits width n.
Proof.
  unfold checks.padding_ok. rewrite forallb_forall. intros Hok Hn.
  apply String.eqb_eq, Hok, in_from_to. lia.
Qed.

Lemma padding_four : checks.padding_ok 4 10000 = true.
Proof. vm_compute. reflexivity. Qed.

Lemma padding_two : checks.padding_ok 2 100 = true.
Proof. vm_compute. reflexivity. Qed.

(** For the years of the calendar, [strftime] prints [YYYY-MM-DD]. *)
Lemma strftime_iso_date (dt : datetime) :
  0 <= year dt <= 9999 -> 0 <= month dt <= 99 -> 0 <= day dt <= 99 ->
  strftime dt "%Y-%m-%d" = spec.iso_date (date_of dt).
Proof.
  intros Hy Hm Hd. rewrite strftime_Ymd.
  rewrite (zfill_digits 4 10000 _ padding_four) by lia.
  rewrite !(zfill_digits 2 100 _ padding_two) by lia.
  unfold checks.digits, spec.iso_date, date_of.
  rewrite !Z.div_div by lia. reflexivity.
Qed.

Lemma is_digit_digit (n : Z) : spec.is_digit (spec.digit n) = true.
Proof.
  unfold spec.digit.
  assert (H : 0 <= n mod 10 < 10) by (apply Z.mod_pos_bound; lia).
  assert (Hc : n mod 10 = 0 \/ n mod 10 = 1 \/ n mod 10 = 2 \/ n mod 10 = 3
               \/ n mod 10 = 4 \/ n mod 10 = 5 \/ n mod 10 = 6 \/ n mod 10 = 7
               \/ n mod 10 = 8 \/ n mod 10 = 9) by lia.
  repeat (destruct Hc as [-> | Hc]; [reflexivity|]). rewrite Hc. reflexivity.
Qed.

Lemma iso_date_shape (d : Z * Z * Z) : spec.YYYY_MM_DD (spec.iso_date d) = true.
Proof.
  destruct d as [[y m] dd]. unfold spec.YYYY_MM_DD, spec.iso_date.
  cbn [list_ascii_of_string forallb]. rewrite !is_digit_digit. reflexivity.
Qed.

(** The years do not go back as the ordinals go on. *)
Lemma ord2ymd_year_mono (k j : Z) :
  1 <= k -> 0 <= j ->
  fst (fst (_ord2ymd k)) <= fst (fst (_ord2ymd (k + j))).
Proof.
  intros Hk Hj. revert j Hj. apply natlike_ind.
  - rewrite Z.add_0_r. lia.
  - intros j Hj IH.
    replace (k + Z.succ j) with (k + j + 1) by lia.
    rewrite ord2ymd_succ by lia.
    pose proof (ymd2ord_ord2ymd (k + j) ltac:(lia)) as H.
    destruct (_ord2ymd (k + j)) as [[y m] d]. destruct H as (Hdate & _ & _).
    pose proof (next_day_ordinal y m d Hdate) as Hnext.
    destruct (spec.next_day (y, m, d)) as [[y' m'] d'].
    cbn [fst] in *. lia.
Qed.

Lemma toordinal_date_of (dt : datetime) :
  valid dt = true -> _ord2ymd (toordinal dt) = date_of dt.
Proof.
  intros Hv. destruct (valid_fields dt Hv) as (_ & Hdate & _).
  apply ord2ymd_ymd2ord. exact Hdate.
Qed.

(** The dates up to [today] are dates of the years 1 to 9999. *)
Lemma ord2ymd_before (today : datetime) (k : Z) :
  valid today = true ->
  0 <= k < toordinal today ->
  let '(y, m, d) := _ord2ymd (toordinal today - k) in
  1 <= y <= 9999 /\ 1 <= m <= 12 /\ 1 <= d <= 31.
Proof.
  intros Hv Hk.
  pose proof (ymd2ord_ord2ymd (toordinal today - k) ltac:(lia)) as H.
  pose proof (ord2ymd_year_mono (toordinal today - k) k ltac:(lia) ltac:(lia)) as Hy.
  replace (toordinal today - k + k) with (toordinal today) in Hy by lia.
  rewrite (toordinal_date_of today Hv) in Hy.
  destruct (valid_fields today Hv) as (Hyear & _).
  destruct (_ord2ymd (toordinal today - k)) as [[y m] d].
  destruct H as ([Hm Hd] & Hy1 & _).
  pose proof (days_in_month_le_31 y m Hm).
  cbn [fst date_of] in Hy. lia.
Qed.

(** One turn of the loop of [get_recovery_chart_data]. *)
Lemma chart_step_run (today : datetime) (i : Z)
      (data : list metrics.RecoveryDataPoint) (w : World) :
  valid today = true -> 7 <= toordinal today -> 0 <= i <= 6 ->
  metrics_service.chart_step today i data w
  = (Returns (data ++
       [ {| metrics.date := spec.iso_date (_ord2ymd (toordinal today - (6 - i)));
            metrics.score := 65 + random_stream w (random_draws w) 31 |} ]),
     {| chat_messages := chat_messages w;
        documents := documents w;
        wall_clock := wall_clock w;
        clock_reads := clock_reads w;
        random_stream := random_stream w;
        random_draws := S (random_draws w) |}).
Proof.
  intros Hv H7 Hi. unfold metrics_service.chart_step, bind, lift.
  rewrite timedelta_days by lia.
  rewrite datetime_sub_days by (auto; lia).
  pose proof (ord2ymd_before today (6 - i) Hv ltac:(lia)) as Hb.
  destruct (_ord2ymd (toordinal today - (6 - i))) as [[y m] d].
  rewrite strftime_iso_date by (cbn [year month day]; lia).
  reflexivity.
Qed.

(** What one call of [get_recovery_chart_data] does: one reading of the
    clock, then seven turns of the loop, each with one draw. *)
Lemma get_recovery_chart_data_run (w : World) :
  valid (current_time w) = true ->
  7 <= toordinal (current_time w) ->
  metrics_service.get_recovery_chart_data w
  = (Returns
       (map (fun i =>
               {| metrics.date :=
                    spec.iso_date
                      (_ord2ymd (toordinal (current_time w) - (6 - Z.of_nat i)));
                  metrics.score :=
                    65 + random_stream w (i + random_draws w) 31 |})
            (seq 0 7)),
     {| chat_messages := chat_messages w;
        documents := documents w;
        wall_clock := wall_clock w;
        clock_reads := S (clock_reads w);
        random_stream := random_stream w;
        random_draws := 7 + random_draws w |}).
Proof.
  intros Hv H7. set (today := current_time w) in *.
  unfold metrics_service.get_recovery_chart_data, bind, datetime_now.
  fold today. change (range 7) with [0; 1; 2; 3; 4; 5; 6].
  cbn [for_each]. unfold bind.
  repeat (rewrite chart_step_run by (auto; lia); cbv beta iota;
          cbn [app chat_messages documents wall_clock clock_reads
               random_stream random_draws]).
  reflexivity.
Qed.

(** C4: with a sound generator and a clock reading that is a well-formed
    datetime on or after 0001-01-07, [get_recovery_chart_data] returns
    exactly 7 points; their dates are the texts [YYYY-MM-DD] of 7 calendar
    dates, each the day after the one before, the last being the current
    date; every score lies in [[65, 95]]. *)
Theorem get_recovery_chart_data_spec (w : World) :
  rng_sound w ->
  valid (current_time w) = true ->
  7 <= toordinal (current_time w) ->
  exists data w' dates,
    metrics_service.get_recovery_chart_data w = (Returns data, w') /\
    List.length data = 7%nat /\
    map metrics.date data = map spec.iso_date dates /\
    Forall spec.is_date dates /\
    spec.consecutive_days dates /\
    nth 6 dates (0, 0, 0) = date_of (current_time w) /\
    Forall (fun p => spec.YYYY_MM_DD (metrics.date p) = true) data /\
    Forall (fun p => 65 <= metrics.score p <= 95) data.
Proof.
  intros Hrng Hv H7. rewrite get_recovery_chart_data_run by assumption.
  set (today := current_time w) in *.
  eexists. eexists.
  exists (map (fun i => _ord2ymd (toordinal today - (6 - Z.of_nat i))) (seq 0 7)).
  split; [reflexivity|].
  split; [reflexivity|].
  split; [reflexivity|].
  split.
  { apply Forall_map, Forall_forall. intros i Hi. apply in_seq in Hi.
    pose proof (ymd2ord_ord2ymd (toordinal today - (6 - Z.of_nat i))) as H.
    destruct (_ord2ymd (toordinal today - (6 - Z.of_nat i))) as [[y m] d].
    apply H. lia. }
  split.
  { cbn [seq map spec.consecutive_days].
    repeat split;
      rewrite <- ord2ymd_succ by lia; f_equal; lia. }
  split.
  { cbn [seq map nth].
    replace (toordinal today - (6 - Z.of_nat 6)) with (toordinal today) by lia.
    apply toordinal_date_of. exact Hv. }
  split.
  { apply Forall_map, Forall_forall. intros i _. apply iso_date_shape. }
  apply Forall_map, Forall_forall. intros i _. cbn [metrics.score].
  pose proof (Hrng (i + random_draws w)%nat 31 ltac:(lia)). lia.
Qed.

(* ================================================================== *)
(** * The chat store *)

Section ChatStore.
Import chat chat_service.

(** What one call of [create_message] does, in full. *)
Lemma create_message_run (message : ChatMessageCreate) (w : World) :
  create_message message w
  = let new_message :=
      {| base := {| content := content message; sender := sender message |};
         id := ("msg_" ++ str (len (chat_messages w) + 1))%string;
         timestamp := current_time w |} in
    (Returns new_message,
     {| chat_messages := chat_messages w ++ [new_message];
        documents := documents w;
        wall_clock := wall_clock w;
        clock_reads := S (clock_reads w);
        random_stream := random_stream w;
        random_draws := random_draws w |}).
Proof. reflexivity. Qed.

(** C1, as the code has it: [create_message] returns the record with id
    ["msg_"] followed by
    the count before the call plus one, the content and sender of the
    input and the current reading of the clock as timestamp, and appends
    exactly that record to the end of the store, which grows by one.  On a
    store that starts empty, creating ("hi", "alice") then ("yo", "bob")
    makes [get_all_messages] return those two messages in that order, with
    ids ["msg_1"] and ["msg_2"]; their timestamps are two successive
    readings of the clock, non-decreasing when the clock does not step
    backwards. *)
Theorem create_message_spec :
  (forall (w : World) (message : ChatMessageCreate),
     exists m w',
       create_message message w = (Returns m, w') /\
       id m = ("msg_" ++ str (len (chat_messages w) + 1))%string /\
       content m = content message /\
       sender m = sender message /\
       timestamp m = current_time w /\
       chat_messages w' = chat_messages w ++ [m] /\
       List.length (chat_messages w') = S (List.length (chat_messages w)))
  /\
  (forall w : World,
     chat_messages w = [] ->
     exists m1 m2 l w',
       (m1 <- create_message sample.hi_alice ;;
        m2 <- create_message sample.yo_bob ;;
        l <- get_all_messages ;;
        ret (m1, m2, l)) w = (Returns (m1, m2, l), w') /\
       l = [m1; m2] /\
       id m1 = "msg_1"%string /\ id m2 = "msg_2"%string /\
       content m1 = "hi"%string /\ sender m1 = "alice"%string /\
       content m2 = "yo"%string /\ sender m2 = "bob"%string /\
       timestamp m1 = wall_clock w (clock_reads w) /\
       timestamp m2 = wall_clock w (S (clock_reads w)) /\
       (clock_monotone w -> datetime_le (timestamp m1) (timestamp m2) = true)).
Proof.
  split.
  - intros w message. rewrite create_message_run. cbv zeta.
    eexists. eexists. split; [reflexivity|].
    cbn [id base content sender timestamp chat_messages].
    repeat split. rewrite length_app. simpl. lia.
  - intros w Hempty. unfold bind.
    rewrite !create_message_run. cbv zeta beta iota.
    cbn [chat_messages]. rewrite Hempty.
    eexists. eexists. eexists. eexists.
    split; [reflexivity|].
    cbn [id base content sender timestamp].
    unfold current_time. cbn [wall_clock clock_reads].
    repeat split.
    intros Hclock. apply Hclock. lia.
Qed.

(** C6: [get_all_messages] returns the content of the store and leaves the
    state as it is, so two reads in a row return equal lists; on an empty
    store it returns the empty list; after any run of [create_message]
    calls on an empty store it returns the messages in the order of the
    calls. *)
Theorem get_all_messages_reads :
  (forall w : World, get_all_messages w = (Returns (chat_messages w), w))
  /\
  (forall w : World,
     (l1 <- get_all_messages ;; l2 <- get_all_messages ;; ret (l1, l2)) w
     = (Returns (chat_messages w, chat_messages w), w))
  /\
  (forall w : World,
     chat_messages w = [] -> fst (get_all_messages w) = Returns [])
  /\
  (forall (w : World) (messages : list ChatMessageCreate),
     chat_messages w = [] ->
     exists l w',
       (sample.create_messages messages ;;; get_all_messages) w = (Returns l, w') /\
       map base l = messages).
Proof.
  split; [reflexivity|]. split; [reflexivity|]. split.
  - intros w H. cbn. now rewrite H.
  - intros w messages Hempty.
    assert (Hgen : forall ms w0,
      exists w1, sample.create_messages ms w0 = (Returns tt, w1)
                 /\ map base (chat_messages w1) = map base (chat_messages w0) ++ ms).
    { induction ms as [|m ms IH]; intros w0.
      - exists w0. split; [reflexivity|]. now rewrite app_nil_r.
      - unfold sample.create_messages. cbn [for_each]. unfold bind at 1 2.
        rewrite create_message_run. cbv zeta beta iota.
        cbn [ret]. 
        match goal with |- context [for_each ms _ tt ?w2] =>
          destruct (IH w2) as (w1 & Hrun & Hmap) end.
        unfold sample.create_messages in Hrun. rewrite Hrun.
        exists w1. split; [reflexivity|].
        rewrite Hmap. cbn [chat_messages]. rewrite map_app. cbn [map base].
        rewrite <- app_assoc. destruct m. reflexivity. }
    destruct (Hgen messages w) as (w1 & Hrun & Hmap).
    unfold bind. rewrite Hrun. cbn.
    exists (chat_messages w1), w1. split; [reflexivity|].
    rewrite Hmap, Hempty. reflexivity.
Qed.

End ChatStore.

(* ================================================================== *)
(** * The document store *)

Section DocumentStore.
Import document document_service.

Lemma create_document_run (d : DocumentCreate) (w : World) :
  create_document d w
  = let new_document :=
      {| base := {| title := title d; content := content d |};
         id := ("doc_" ++ str (len (documents w) + 1))%string;
         timestamp := current_time w |} in
    (Returns new_document,
     {| chat_messages := chat_messages w;
        documents := documents w ++ [new_document];
        wall_clock := wall_clock w;
        clock_reads := S (clock_reads w);
        random_stream := random_stream w;
        random_draws := random_draws w |}).
Proof. reflexivity. Qed.

Lemma create_documents_run (ds : list DocumentCreate) (w : World) :
  exists w', sample.create_documents ds w = (Returns tt, w')
             /\ map base (documents w') = map base (documents w) ++ ds.
Proof.
  revert w. induction ds as [|d ds IH]; intros w.
  - exists w. split; [reflexivity|]. now rewrite app_nil_r.
  - unfold sample.create_documents. cbn [for_each]. unfold bind at 1 2.
    rewrite create_document_run. cbv zeta beta iota. cbn [ret].
    match goal with |- context [for_each ds _ tt ?w2] =>
      destruct (IH w2) as (w1 & Hrun & Hmap) end.
    unfold sample.create_documents in Hrun. rewrite Hrun.
    exists w1. split; [reflexivity|].
    rewrite Hmap. cbn [documents]. rewrite map_app. cbn [map base].
    rewrite <- app_assoc. destruct d. reflexivity.
Qed.

(** C5: the document store works like the chat store, with [title] and
    [content] and the prefix ["doc_"]: [create_document] returns the record
    with id ["doc_"] followed by the count before the call plus one, the
    title and content of the input and the current reading of the clock,
    and appends it; [get_all_documents] returns the stored documents, which
    after any run of [create_document] calls on an empty store are the
    created ones in the order of the calls. *)
Theorem create_document_spec :
  (forall (w : World) (d : DocumentCreate),
     exists doc w',
       create_document d w = (Returns doc, w') /\
       id doc = ("doc_" ++ str (len (documents w) + 1))%string /\
       title doc = title d /\
       content doc = content d /\
       timestamp doc = current_time w /\
       documents w' = documents w ++ [doc])
  /\
  (forall w : World, get_all_documents w = (Returns (documents w), w))
  /\
  (forall (w : World) (ds : list DocumentCreate),
     documents w = [] ->
     exists l w',
       (sample.create_documents ds ;;; get_all_documents) w = (Returns l, w') /\
       map base l = ds).
Proof.
  split; [|split].
  - intros w d. rewrite create_document_run. cbv zeta.
    eexists. eexists. split; [reflexivity|].
    cbn [id base title content timestamp documents]. repeat split.
  - reflexivity.
  - intros w ds Hempty.
    destruct (create_documents_run ds w) as (w1 & Hrun & Hmap).
    unfold bind. rewrite Hrun. cbn.
    exists (documents w1), w1. split; [reflexivity|].
    rewrite Hmap, Hempty. reflexivity.
Qed.

End DocumentStore.

(* ================================================================== *)
(** * The metrics generator *)

Section Generator.
Import metrics metrics_service.

(** [randint(a, b)] with [a <= b]: one draw below [b + 1 - a], shifted. *)
Lemma randint_run (a b : Z) (w : World) :
  a <= b ->
  randint a b w
  = (Returns (a + random_stream w (random_draws w) (b + 1 - a)),
     {| chat_messages := chat_messages w;
        documents := documents w;
        wall_clock := wall_clock w;
        clock_reads := clock_reads w;
        random_stream := random_stream w;
        random_draws := S (random_draws w) |}).
Proof.
  intros Hab. unfold randint, randrange.
  replace (0 <? b + 1 - a) with true by (symmetry; apply Z.ltb_lt; lia).
  reflexivity.
Qed.

Lemma randint_range (a b : Z) (w : World) (k : nat) :
  rng_sound w -> a <= b -> a <= a + random_stream w k (b + 1 - a) <= b.
Proof. intros Hrng Hab. pose proof (Hrng k (b + 1 - a)). lia. Qed.

(** What one call of [get_metrics] does: five draws in a row. *)
Lemma get_metrics_run (w : World) :
  get_metrics w
  = (Returns
       {| recovery_score := 70 + random_stream w (random_draws w) (95 + 1 - 70);
          mobility_score := 60 + random_stream w (1 + random_draws w) (90 + 1 - 60);
          pain_level := 1 + random_stream w (2 + random_draws w) (5 + 1 - 1);
          exercises_completed := 3 + random_stream w (3 + random_draws w) (15 + 1 - 3);
          streak_days := 1 + random_stream w (4 + random_draws w) (10 + 1 - 1) |},
     {| chat_messages := chat_messages w;
        documents := documents w;
        wall_clock := wall_clock w;
        clock_reads := clock_reads w;
        random_stream := random_stream w;
        random_draws := 5 + random_draws w |}).
Proof.
  unfold get_metrics, bind.
  repeat (rewrite randint_run by lia; cbv beta iota;
          cbn [chat_messages documents wall_clock clock_reads
               random_stream random_draws]).
  reflexivity.
Qed.

(** C3: with a generator that honours its contract, every call of
    [get_metrics] returns a [Metrics] whose fields lie in their intervals:
    recovery_score in [[70,95]], mobility_score in [[60,90]], pain_level in
    [[1,5]], exercises_completed in [[3,15]], streak_days in [[1,10]]. *)
Theorem get_metrics_in_range (w : World) :
  rng_sound w ->
  exists m w',
    get_metrics w = (Returns m, w') /\
    70 <= recovery_score m <= 95 /\
    60 <= mobility_score m <= 90 /\
    1 <= pain_level m <= 5 /\
    3 <= exercises_completed m <= 15 /\
    1 <= streak_days m <= 10.
Proof.
  intros Hrng. rewrite get_metrics_run.
  eexists. eexists. split; [reflexivity|].
  cbn [recovery_score mobility_score pain_level exercises_completed streak_days].
  repeat split; apply randint_range; auto; lia.
Qed.

End Generator.

(* ================================================================== *)
(** * Which operation touches which store *)

Section Frame.
Import spec.

Lemma keeps_ret {A} (a : A) : keeps_stores (ret a).
Proof. intros w. split; reflexivity. Qed.

Lemma keeps_raise {A} (e : exn) : keeps_stores (@raise A e).
Proof. intros w. split; reflexivity. Qed.

Lemma keeps_lift {A} (o : outcome A) : keeps_stores (lift o).
Proof. intros w. split; reflexivity. Qed.

Lemma keeps_bind {A B} (c : Py A) (k : A -> Py B) :
  keeps_stores c -> (forall a, keeps_stores (k a)) -> keeps_stores (bind c k).
Proof.
  intros Hc Hk w. unfold bind. specialize (Hc w).
  destruct (c w) as [[a | e] w1]; cbn [snd] in *.
  - destruct (Hk a w1) as [H1 H2]. destruct Hc as [H3 H4].
    split; congruence.
  - exact Hc.
Qed.

Lemma keeps_datetime_now : keeps_stores datetime_now.
Proof. intros w. split; reflexivity. Qed.

Lemma keeps_randbelow (n : Z) : keeps_stores (_randbelow n).
Proof. intros w. split; reflexivity. Qed.

Lemma keeps_randint (a b : Z) : keeps_stores (randint a b).
Proof.
  unfold randint, randrange. destruct (0 <? b + 1 - a).
  - apply keeps_bind; [apply keeps_randbelow | intros; apply keeps_ret].
  - apply keeps_raise.
Qed.

Lemma keeps_for_each {A B} (xs : list A) (body : A -> B -> Py B) (acc : B) :
  (forall x b, keeps_stores (body x b)) -> keeps_stores (for_each xs body acc).
Proof.
  intros Hbody. revert acc. induction xs as [|x xs IH]; intros acc; cbn [for_each].
  - apply keeps_ret.
  - apply keeps_bind; [apply Hbody | exact IH].
Qed.

Create HintDb frame.
#[local] Hint Resolve keeps_ret keeps_raise keeps_lift keeps_datetime_now
  keeps_randbelow keeps_randint : frame.

Lemma keeps_get_metrics : keeps_stores metrics_service.get_metrics.
Proof.
  unfold metrics_service.get_metrics.
  repeat (apply keeps_bind; [auto with frame | intros ?]). auto with frame.
Qed.

Lemma keeps_get_recovery_chart_data :
  keeps_stores metrics_service.get_recovery_chart_data.
Proof.
  unfold metrics_service.get_recovery_chart_data.
  apply keeps_bind; [auto with frame | intros today].
  apply keeps_for_each. intros i data. unfold metrics_service.chart_step.
  repeat (apply keeps_bind; [auto with frame | intros ?]). auto with frame.
Qed.

(** C9: the two stores and the generator do not touch each other:
    [create_message] and [get_all_messages] leave the documents as they
    are, [create_document] and [get_all_documents] leave the chat messages
    as they are, and [get_metrics] and [get_recovery_chart_data] leave both
    stores as they are. *)
Theorem stores_independent (w : World) :
  (forall message,
     documents (snd (chat_service.create_message message w)) = documents w) /\
  documents (snd (chat_service.get_all_messages w)) = documents w /\
  (forall d,
     chat_messages (snd (document_service.create_document d w)) = chat_messages w) /\
  chat_messages (snd (document_service.get_all_documents w)) = chat_messages w /\
  same_stores w (snd (metrics_service.get_metrics w)) /\
  same_stores w (snd (metrics_service.get_recovery_chart_data w)).
Proof.
  split; [reflexivity|]. split; [reflexivity|].
  split; [reflexivity|]. split; [reflexivity|].
  split; [apply keeps_get_metrics | apply keeps_get_recovery_chart_data].
Qed.

End Frame.

(* ================================================================== *)
(** * The ids of the stored records *)

Section Ids.
Import spec.

Lemma str_inj (n m : Z) : str n = str m -> n = m.
Proof.
  unfold str. intros H. apply DecimalZ.to_int_inj.
  assert (Hnn : forall z, Z.to_int z <> Decimal.Pos Decimal.Nil
                          /\ Z.to_int z <> Decimal.Neg Decimal.Nil).
  { intros [|p|p]; simpl; split; try discriminate;
      intros [= E]; exact (DecimalPos.Unsigned.to_uint_nonnil p E). }
  destruct (Hnn n) as [Hn1 Hn2]. destruct (Hnn m) as [Hm1 Hm2].
  pose proof (NilZero.isi _ Hn1 Hn2) as En.
  pose proof (NilZero.isi _ Hm1 Hm2) as Em.
  rewrite H in En. congruence.
Qed.

Lemma append_inj_l (p a b : string) : (p ++ a = p ++ b)%string -> a = b.
Proof.
  induction p as [|c p IH]; simpl; intros H; [exact H|].
  injection H as H. auto.
Qed.

Lemma numbered_ids_S (p : string) (N : nat) :
  numbered_ids p (S N)
  = numbered_ids p N ++ [(p ++ str (Z.of_nat N + 1))%string].
Proof.
  unfold numbered_ids. rewrite seq_S, map_app. cbn [map].
  replace (Z.of_nat (1 + N)) with (Z.of_nat N + 1) by lia. reflexivity.
Qed.

Lemma NoDup_map_injective {A B} (f : A -> B) (l : list A) :
  (forall a b, f a = f b -> a = b) -> NoDup l -> NoDup (map f l).
Proof.
  intros Hinj. induction 1 as [|a l Hnotin Hnodup IH]; cbn [map]; constructor.
  - rewrite in_map_iff. intros (b & Hb & Hin).
    apply Hinj in Hb. subst b. contradiction.
  - exact IH.
Qed.

Lemma numbered_ids_NoDup (p : string) (N : nat) : NoDup (numbered_ids p N).
Proof.
  unfold numbered_ids. apply NoDup_map_injective; [|apply seq_NoDup].
  intros a b H. apply append_inj_l, str_inj in H. lia.
Qed.

Lemma numbered_ids_nth (p : string) (N n : nat) (s : string) :
  nth_error (numbered_ids p N) n = Some s ->
  s = (p ++ str (Z.of_nat n + 1))%string.
Proof.
  unfold numbered_ids. intros H.
  rewrite nth_error_map in H.
  destruct (nth_error (seq 1 N) n) as [k|] eqn:E; [|discriminate].
  injection H as <-.
  assert (Hlt : (n < N)%nat).
  { rewrite <- (length_seq N 1). apply nth_error_Some. congruence. }
  rewrite nth_error_nth' with (d := O) in E by (rewrite length_seq; exact Hlt).
  rewrite seq_nth in E by exact Hlt.
  assert (Ek : Z.of_nat k = Z.of_nat n + 1) by (injection E; lia).
  rewrite Ek. reflexivity.
Qed.

(** Serving a request leaves the list of messages as it is or appends one
    message, whose id is the count before plus one. *)
Lemma serve_chat_messages (r : api.request) (w : World) :
  chat_messages (api.serve r w) = chat_messages w
  \/ exists m,
       chat_messages (api.serve r w) = chat_messages w ++ [m]
       /\ chat.id m = ("msg_" ++ str (len (chat_messages w) + 1))%string.
Proof.
  destruct r; unfold api.serve, api.dispatch.
  - left. apply (keeps_bind _ _ keeps_get_metrics (fun _ => keeps_ret _)).
  - left. apply (keeps_bind _ _ keeps_get_recovery_chart_data (fun _ => keeps_ret _)).
  - left. reflexivity.
  - right. eexists. split; reflexivity.
  - left. reflexivity.
  - left. reflexivity.
Qed.

Lemma serve_documents (r : api.request) (w : World) :
  documents (api.serve r w) = documents w
  \/ exists d,
       documents (api.serve r w) = documents w ++ [d]
       /\ document.id d = ("doc_" ++ str (len (documents w) + 1))%string.
Proof.
  destruct r; unfold api.serve, api.dispatch.
  - left. apply (keeps_bind _ _ keeps_get_metrics (fun _ => keeps_ret _)).
  - left. apply (keeps_bind _ _ keeps_get_recovery_chart_data (fun _ => keeps_ret _)).
  - left. reflexivity.
  - left. reflexivity.
  - left. reflexivity.
  - right. eexists. split; reflexivity.
Qed.

(** In every state of the process, the ids in each store are the prefix
    followed by 1, 2, 3, ... in the order of the list. *)
Lemma reachable_ids (w : World) :
  api.reachable w ->
  map chat.id (chat_messages w)
  = numbered_ids "msg_" (List.length (chat_messages w))
  /\ map document.id (documents w)
     = numbered_ids "doc_" (List.length (documents w)).
Proof.
  induction 1 as [w Hc Hd | r w Hreach [IHc IHd]].
  - rewrite Hc, Hd. split; reflexivity.
  - split.
    + destruct (serve_chat_messages r w) as [-> | (m & -> & Hid)]; [exact IHc|].
      rewrite map_app, length_app, IHc. cbn [map List.length].
      rewrite Nat.add_1_r, numbered_ids_S, Hid. reflexivity.
    + destruct (serve_documents r w) as [-> | (d & -> & Hid)]; [exact IHd|].
      rewrite map_app, length_app, IHd. cbn [map List.length].
      rewrite Nat.add_1_r, numbered_ids_S, Hid. reflexivity.
Qed.

(** C2: in every state reached from the empty stores by serving requests,
    the record at position [n + 1] of the chat store has id ["msg_"]
    followed by [n + 1], the record at position [n + 1] of the document
    store has id ["doc_"] followed by [n + 1], and the ids of each store
    are pairwise distinct; serving a request only ever extends a store at
    its end, so no store shrinks. *)
Theorem store_ids_invariant :
  (forall w : World,
     api.reachable w ->
     (forall n m, nth_error (chat_messages w) n = Some m ->
                  chat.id m = ("msg_" ++ str (Z.of_nat n + 1))%string) /\
     (forall n d, nth_error (documents w) n = Some d ->
                  document.id d = ("doc_" ++ str (Z.of_nat n + 1))%string) /\
     NoDup (map chat.id (chat_messages w)) /\
     NoDup (map document.id (documents w)))
  /\
  (forall (w : World) (r : api.request),
     exists more_messages more_documents,
       chat_messages (api.serve r w) = chat_messages w ++ more_messages /\
       documents (api.serve r w) = documents w ++ more_documents).
Proof.
  split.
  - intros w Hreach. destruct (reachable_ids w Hreach) as [Hc Hd].
    repeat split.
    + intros n m Hn. apply (numbered_ids_nth _ (List.length (chat_messages w)) n).
      rewrite <- Hc, nth_error_map, Hn. reflexivity.
    + intros n d Hn. apply (numbered_ids_nth _ (List.length (documents w)) n).
      rewrite <- Hd, nth_error_map, Hn. reflexivity.
    + rewrite Hc. apply numbered_ids_NoDup.
    + rewrite Hd. apply numbered_ids_NoDup.
  - intros w r.
    destruct (serve_chat_messages r w) as [Hc | (m & Hc & _)];
    destruct (serve_documents r w) as [Hd | (d & Hd & _)];
    rewrite Hc, Hd.
    + exists [], []. now rewrite !app_nil_r.
    + exists [], [d]. now rewrite !app_nil_r.
    + exists [m], []. now rewrite !app_nil_r.
    + exists [m], [d]. split; reflexivity.
Qed.

End Ids.

(* ================================================================== *)
(** * No operation fails *)

Section Totality.

Lemma dispatch_returns {A} (c : Py A) (f : A -> api.response) (w : World) :
  (exists a w', c w = (Returns a, w')) ->
  exists resp w', (x <- c ;; ret (f x)) w = (Returns resp, w').
Proof.
  intros (a & w' & H). unfold bind. rewrite H. exists (f a), w'. reflexivity.
Qed.

(** C7: for all strings, the empty string included, [create_message] and
    [create_document] return a record and append it; every request other
    than the chart is answered with a value, never with an exception, and
    so is the chart whenever the clock reads a well-formed datetime on or
    after 0001-01-07. *)
Theorem core_operations_succeed :
  (forall (w : World) (content sender : string),
     exists m w',
       chat_service.create_message
         {| chat.content := content; chat.sender := sender |} w = (Returns m, w')
       /\ chat_messages w' = chat_messages w ++ [m])
  /\
  (forall (w : World) (title content : string),
     exists d w',
       document_service.create_document
         {| document.title := title; document.content := content |} w
       = (Returns d, w')
       /\ documents w' = documents w ++ [d])
  /\
  (forall (w : World) (r : api.request),
     r <> api.GET_recovery_chart ->
     exists resp w', api.dispatch r w = (Returns resp, w'))
  /\
  (forall w : World,
     valid (current_time w) = true ->
     7 <= toordinal (current_time w) ->
     exists resp w', api.dispatch api.GET_recovery_chart w = (Returns resp, w')).
Proof.
  split; [|split; [|split]].
  - intros w content sender. rewrite create_message_run. cbv zeta.
    eexists. eexists. split; reflexivity.
  - intros w title content. rewrite create_document_run. cbv zeta.
    eexists. eexists. split; reflexivity.
  - intros w r Hr. destruct r; try contradiction;
      unfold api.dispatch; apply dispatch_returns.
    + rewrite get_metrics_run. eexists. eexists. reflexivity.
    + eexists. eexists. reflexivity.
    + rewrite create_message_run. eexists. eexists. reflexivity.
    + eexists. eexists. reflexivity.
    + rewrite create_document_run. eexists. eexists. reflexivity.
  - intros w Hv H7. unfold api.dispatch. apply dispatch_returns.
    rewrite get_recovery_chart_data_run by assumption.
    eexists. eexists. reflexivity.
Qed.

End Totality.

(* ================================================================== *)
(** * The models carry no bounds *)

Section Models.
Import metrics.

(** C10: [Metrics] and [RecoveryDataPoint] accept any integers: a value
    exists for every choice of fields, for instance a [Metrics] with
    [recovery_score = 200] and a [RecoveryDataPoint] with [score = -1],
    both outside the documented intervals. *)
Theorem models_accept_any_int :
  (forall r mo p e s : Z,
     exists m : Metrics,
       recovery_score m = r /\ mobility_score m = mo /\ pain_level m = p
       /\ exercises_completed m = e /\ streak_days m = s)
  /\
  (forall (d : string) (s : Z),
     exists p : RecoveryDataPoint, date p = d /\ score p = s)
  /\
  (exists m : Metrics, recovery_score m = 200 /\ ~ spec.metrics_in_range m)
  /\
  (exists p : RecoveryDataPoint, score p = -1 /\ ~ 65 <= score p <= 95).
Proof.
  split; [|split; [|split]].
  - intros r mo p e s.
    exists {| recovery_score := r; mobility_score := mo; pain_level := p;
              exercises_completed := e; streak_days := s |}.
    repeat split.
  - intros d s. exists {| date := d; score := s |}. split; reflexivity.
  - exists {| recovery_score := 200; mobility_score := 60; pain_level := 1;
              exercises_completed := 3; streak_days := 1 |}.
    split; [reflexivity|]. unfold spec.metrics_in_range. cbn. lia.
  - exists {| date := "2025-03-02"; score := -1 |}.
    split; [reflexivity|]. cbn. lia.
Qed.

End Models.

(* ================================================================== *)
(** * Calls on several threads *)

Section Threads.
Import chat chat_service threads.

Lemma length_update {A} (l : list A) (i : nat) (x : A) :
  List.length (update l i x) = List.length l.
Proof.
  revert i. induction l as [|y l IH]; intros [|i]; cbn [update List.length];
    auto.
Qed.

Lemma nth_error_update_eq {A} (l : list A) (i : nat) (x : A) :
  (i < List.length l)%nat -> nth_error (update l i x) i = Some x.
Proof.
  revert i. induction l as [|y l IH]; intros [|i]; cbn [update List.length nth_error];
    intros H; try lia; auto. apply IH. lia.
Qed.

Lemma nth_error_update_neq {A} (l : list A) (i j : nat) (x : A) :
  i <> j -> nth_error (update l i x) j = nth_error l j.
Proof.
  revert i j. induction l as [|y l IH]; intros [|i] [|j] H;
    cbn [update nth_error]; try reflexivity; try contradiction.
  apply IH. congruence.
Qed.

Lemma update_update {A} (l : list A) (i : nat) (x y : A) :
  update (update l i x) i y = update l i y.
Proof.
  revert i. induction l as [|z l IH]; intros [|i]; cbn [update]; auto.
  now rewrite IH.
Qed.

(** The two steps of a call, taken back to back, are [create_message]. *)
Lemma steps_create_message (message : ChatMessageCreate) (w : World) :
  (c <- step (Pending message) ;; step c) w
  = (m <- create_message message ;; ret (Finished m)) w.
Proof. reflexivity. Qed.

(** A call that runs both its steps without another call in between. *)
Lemma run_call_exclusive (t : nat) (rest : list nat) (calls : list call)
      (message : ChatMessageCreate) (w : World) :
  nth_error calls t = Some (Pending message) ->
  match create_message message w with
  | (Returns m, w') =>
      run (t :: t :: rest) calls w = run rest (update calls t (Finished m)) w'
  | (Raises _, _) => False
  end.
Proof.
  intros Ht. rewrite create_message_run. cbv zeta.
  assert (Hlt : (t < List.length calls)%nat)
    by (apply nth_error_Some; congruence).
  cbn [run]. rewrite Ht. cbn [step]. unfold bind at 1. cbn [chat_messages_len].
  unfold bind at 1. cbn [datetime_now ret].
  cbn [run]. rewrite nth_error_update_eq by exact Hlt.
  cbn [step]. unfold bind. cbn [chat_messages_append ret].
  rewrite update_update.
  cbn [chat_messages documents wall_clock clock_reads random_stream random_draws].
  reflexivity.
Qed.

(** Calls that exclude one another append their messages one by one, in
    the order in which they run, numbered from the size of the store. *)
Lemma run_exclusive (order : list nat) :
  forall (calls : list call) (w : World),
    NoDup order ->
    (forall t, In t order ->
               exists message, nth_error calls t = Some (Pending message)) ->
    exists calls' w' new,
      run (exclusive order) calls w = (calls', w')
      /\ List.length calls' = List.length calls
      /\ (forall t, In t order -> exists m, nth_error calls' t = Some (Finished m))
      /\ (forall t, ~ In t order -> nth_error calls' t = nth_error calls t)
      /\ chat_messages w' = chat_messages w ++ new
      /\ map id new
         = map (fun k => ("msg_" ++ str (Z.of_nat k))%string)
               (seq (S (List.length (chat_messages w))) (List.length order)).
Proof.
  induction order as [|t order IH]; intros calls w Hnodup Hpending.
  - exists calls, w, []. cbn. rewrite app_nil_r. repeat split; auto.
    intros t [].
  - inversion Hnodup as [|? ? Hnotin Hnodup']; subst.
    destruct (Hpending t (or_introl eq_refl)) as [message Ht].
    pose proof (run_call_exclusive t (exclusive order) calls message w Ht) as Hrun.
    rewrite create_message_run in Hrun. cbv zeta beta iota in Hrun.
    assert (Hlt : (t < List.length calls)%nat)
      by (apply nth_error_Some; congruence).
    match type of Hrun with
    | _ = run _ (update _ _ (Finished ?m)) ?w1 =>
        destruct (IH (update calls t (Finished m)) w1 Hnodup') as
          (calls' & w' & new & Hrest & Hlen & Hfin & Hkeep & Hchat & Hids);
        [ intros t' Hin; rewrite nth_error_update_neq by congruence;
          apply Hpending; now right
        | exists calls', w', (m :: new) ]
    end.
    change (exclusive (t :: order)) with (t :: t :: exclusive order).
    rewrite Hrun, Hrest. split; [reflexivity|].
    split; [now rewrite Hlen, length_update|].
    split; [|split; [|split]].
    + intros t' [<- | Hin]; [|now apply Hfin].
      rewrite (Hkeep t Hnotin), nth_error_update_eq by exact Hlt. eauto.
    + intros t' Hnot. rewrite Hkeep by (intros Hin; apply Hnot; now right).
      apply nth_error_update_neq. intros ->. apply Hnot. now left.
    + rewrite Hchat. cbn [chat_messages]. rewrite <- app_assoc. reflexivity.
    + cbn [chat_messages] in Hids.
      rewrite length_app in Hids. cbn [List.length] in Hids.
      rewrite Nat.add_1_r in Hids.
      cbn [map List.length seq]. rewrite Hids. f_equal.
      cbn [id]. unfold len.
      rewrite Nat2Z.inj_succ. unfold Z.succ. reflexivity.
Qed.

(** C8, as the code has it: calls of [create_message] that exclude one
    another (each runs its length read and its append with no other call
    in between), in whatever order, leave [N] messages with the ids
    ["msg_1"] to ["msg_N"], all distinct, on a store that was empty.
    Nothing in the code excludes them: two calls that both read the length
    before either appends both finish with the id ["msg_1"]. *)
Theorem exclusive_appends_numbered :
  (forall (messages : list ChatMessageCreate) (order : list nat) (w : World),
     chat_messages w = [] ->
     Permutation order (seq 0 (List.length messages)) ->
     forallb finished
       (fst (run (exclusive order) (map Pending messages) w)) = true
     /\ map id (chat_messages (snd (run (exclusive order) (map Pending messages) w)))
        = spec.numbered_ids "msg_" (List.length messages)
     /\ NoDup (map id (chat_messages
                         (snd (run (exclusive order) (map Pending messages) w)))))
  /\
  (forall w : World,
     chat_messages w = [] ->
     forallb finished
       (fst (run [0; 1; 0; 1]%nat [Pending sample.hi_alice; Pending sample.yo_bob] w))
     = true
     /\ map id (chat_messages
                  (snd (run [0; 1; 0; 1]%nat
                          [Pending sample.hi_alice; Pending sample.yo_bob] w)))
        = ["msg_1"; "msg_1"]%string).
Proof.
  split.
  - intros messages order w Hempty Hperm.
    assert (Hnodup : NoDup order).
    { apply (Permutation_NoDup (Permutation_sym Hperm)), seq_NoDup. }
    assert (Hin : forall t, In t order <-> (t < List.length messages)%nat).
    { intros t. split; intros H.
      - apply (Permutation_in _ Hperm), in_seq in H. lia.
      - apply (Permutation_in _ (Permutation_sym Hperm)), in_seq. lia. }
    destruct (run_exclusive order (map Pending messages) w Hnodup) as
      (calls' & w' & new & Hrun & Hlen & Hfin & _ & Hchat & Hids).
    { intros t Ht. apply Hin in Ht.
      destruct (nth_error messages t) as [message|] eqn:E.
      - exists message. rewrite nth_error_map, E. reflexivity.
      - apply nth_error_None in E. lia. }
    rewrite Hrun. cbn [fst snd].
    assert (Hnumbered :
      map id (chat_messages w') = spec.numbered_ids "msg_" (List.length messages)).
    { rewrite Hempty in Hchat, Hids. cbn [app List.length] in Hchat, Hids.
      rewrite Hchat, Hids, (Permutation_length Hperm), length_seq.
      reflexivity. }
    split; [|split].
    + apply forallb_forall. intros c Hc.
      destruct (In_nth_error _ _ Hc) as [t Ht].
      assert (Hlt : (t < List.length calls')%nat)
        by (apply nth_error_Some; congruence).
      rewrite Hlen, length_map in Hlt.
      destruct (Hfin t (proj2 (Hin t) Hlt)) as [m Hm].
      rewrite Hm in Ht. injection Ht as <-. reflexivity.
    + exact Hnumbered.
    + rewrite Hnumbered. apply numbered_ids_NoDup.
  - intros w Hempty. cbn [run nth_error step update]. unfold bind.
    cbn [chat_messages_len datetime_now ret chat_messages_append chat_messages
         fst snd forallb finished andb]. 
    rewrite Hempty. split; reflexivity.
Qed.

(** C8, as stated, fails: under the schedule in which both of two calls
    read the length before either appends, the store ends with the ids
    ["msg_1"] and ["msg_1"], which are not distinct. *)
Lemma concurrent_appends_collide : ~ concurrent_append_safe.
Proof.
  intros Hsafe.
  destruct (Hsafe [sample.hi_alice; sample.yo_bob] [0; 1; 0; 1]%nat
                  sample.fresh eq_refl eq_refl) as (_ & Hnodup & _).
  vm_compute in Hnodup. inversion Hnodup as [|x l Hnotin _]; subst.
  apply Hnotin. left. reflexivity.
Qed.

End Threads.

(* ================================================================== *)
(** * The sample process *)

(** The chart served on 2 March 2025 runs from 24 February, across the end
    of a 28-day February. *)
Example sample_chart_dates :
  match fst (metrics_service.get_recovery_chart_data sample.fresh) with
  | Returns data =>
      map metrics.date data
      = ["2025-02-24"; "2025-02-25"; "2025-02-26"; "2025-02-27"; "2025-02-28";
         "2025-03-01"; "2025-03-02"]%string
  | Raises _ => False
  end.
Proof. vm_compute. reflexivity. Qed.

(** In the first week of year 1 the chart cannot be computed: six days
    before [0001-01-03] there is no date. *)
Example chart_before_the_calendar :
  datetime_sub {| year := 1; month := 1; day := 3; hour := 0; minute := 0;
                  second := 0; microsecond := 0 |}
               {| days := 6; seconds := 0; microseconds := 0 |}
  = Raises (OverflowError "result out of range").
Proof. reflexivity. Qed.

Example sample_messages :
  match fst ((sample.create_messages [sample.hi_alice; sample.yo_bob] ;;;
              chat_service.get_all_messages) sample.fresh) with
  | Returns l => map chat.id l = ["msg_1"; "msg_2"]%string
  | Raises _ => False
  end.
Proof. vm_compute. reflexivity. Qed.


Lemma sample_rng_sound : rng_sound sample.fresh.
Proof.
  intros k n Hn. cbn [random_stream sample.fresh]. unfold sample.generator.
  apply Z.mod_pos_bound. exact Hn.
Qed.

Lemma sample_clock_monotone : clock_monotone sample.fresh.
Proof.
  intros i j Hij. cbn [wall_clock sample.fresh].
  unfold datetime_le, _getstate, sample.clock.
  cbn [year month day hour minute second microsecond cmp_tuple].
  rewrite !Z.compare_refl.
  destruct (Z.compare_spec (Z.min (Z.of_nat i * 1000) 999999)
                           (Z.min (Z.of_nat j * 1000) 999999));
    try reflexivity; lia.
Qed.

Section Witnesses.
Import chat.

Lemma create_message_spec_witness :
  chat_messages sample.fresh = [] /\ clock_monotone sample.fresh /\
  exists m1 m2 l w',
    (m1 <- chat_service.create_message sample.hi_alice ;;
     m2 <- chat_service.create_message sample.yo_bob ;;
     l <- chat_service.get_all_messages ;;
     ret (m1, m2, l)) sample.fresh = (Returns (m1, m2, l), w') /\
    l = [m1; m2] /\
    id m1 = "msg_1"%string /\ id m2 = "msg_2"%string /\
    datetime_le (timestamp m1) (timestamp m2) = true.
Proof.
  split; [reflexivity|]. split; [exact sample_clock_monotone|].
  destruct (proj2 create_message_spec sample.fresh eq_refl) as
    (m1 & m2 & l & w' & Hrun & Hl & Hid1 & Hid2 & _ & _ & _ & _ & _ & _ & Hle).
  exists m1, m2, l, w'.
  repeat split; try assumption. exact (Hle sample_clock_monotone).
Defined.

Lemma store_ids_invariant_witness :
  let w := api.serve (api.POST_documents sample.notes)
             (api.serve (api.POST_chat_messages sample.hi_alice) sample.fresh) in
  api.reachable w /\
  (forall n m, nth_error (chat_messages w) n = Some m ->
               chat.id m = ("msg_" ++ str (Z.of_nat n + 1))%string) /\
  (forall n d, nth_error (documents w) n = Some d ->
               document.id d = ("doc_" ++ str (Z.of_nat n + 1))%string) /\
  NoDup (map chat.id (chat_messages w)) /\
  NoDup (map document.id (documents w)).
Proof.
  intros w.
  assert (Hreach : api.reachable w).
  { apply api.reachable_serve, api.reachable_serve, api.reachable_start;
      reflexivity. }
  split; [exact Hreach|].
  exact (proj1 store_ids_invariant w Hreach).
Defined.

Lemma get_metrics_in_range_witness :
  rng_sound sample.fresh /\
  exists m w',
    metrics_service.get_metrics sample.fresh = (Returns m, w') /\
    70 <= metrics.recovery_score m <= 95 /\
    60 <= metrics.mobility_score m <= 90 /\
    1 <= metrics.pain_level m <= 5 /\
    3 <= metrics.exercises_completed m <= 15 /\
    1 <= metrics.streak_days m <= 10.
Proof.
  split; [exact sample_rng_sound|].
  exact (get_metrics_in_range sample.fresh sample_rng_sound).
Defined.

Lemma get_recovery_chart_data_spec_witness :
  rng_sound sample.fresh /\
  valid (current_time sample.fresh) = true /\
  7 <= toordinal (current_time sample.fresh) /\
  exists data w' dates,
    metrics_service.get_recovery_chart_data sample.fresh = (Returns data, w') /\
    List.length data = 7%nat /\
    map metrics.date data = map spec.iso_date dates /\
    Forall spec.is_date dates /\
    spec.consecutive_days dates /\
    nth 6 dates (0, 0, 0) = date_of (current_time sample.fresh) /\
    Forall (fun p => spec.YYYY_MM_DD (metrics.date p) = true) data /\
    Forall (fun p => 65 <= metrics.score p <= 95) data.
Proof.
  assert (H7 : 7 <= toordinal (current_time sample.fresh))
    by (vm_compute; discriminate).
  split; [exact sample_rng_sound|]. split; [reflexivity|]. split; [exact H7|].
  exact (get_recovery_chart_data_spec sample.fresh sample_rng_sound eq_refl H7).
Defined.

Lemma create_document_spec_witness :
  documents sample.fresh = [] /\
  exists l w',
    (sample.create_documents [sample.notes] ;;; document_service.get_all_documents)
      sample.fresh = (Returns l, w') /\
    map document.base l = [sample.notes].
Proof.
  split; [reflexivity|].
  exact (proj2 (proj2 create_document_spec) sample.fresh [sample.notes] eq_refl).
Defined.

Lemma get_all_messages_reads_witness :
  chat_messages sample.fresh = [] /\
  fst (chat_service.get_all_messages sample.fresh) = Returns [] /\
  exists l w',
    (sample.create_messages [sample.hi_alice; sample.yo_bob] ;;;
     chat_service.get_all_messages) sample.fresh = (Returns l, w') /\
    map chat.base l = [sample.hi_alice; sample.yo_bob].
Proof.
  split; [reflexivity|]. split.
  - exact (proj1 (proj2 (proj2 get_all_messages_reads)) sample.fresh eq_refl).
  - exact (proj2 (proj2 (proj2 get_all_messages_reads)) sample.fresh
             [sample.hi_alice; sample.yo_bob] eq_refl).
Defined.

Lemma core_operations_succeed_witness :
  valid (current_time sample.fresh) = true /\
  7 <= toordinal (current_time sample.fresh) /\
  (exists resp w',
     api.dispatch api.GET_recovery_chart sample.fresh = (Returns resp, w')) /\
  (exists resp w',
     api.dispatch (api.POST_chat_messages
                     {| chat.content := ""; chat.sender := "" |}) sample.fresh
     = (Returns resp, w')).
Proof.
  assert (H7 : 7 <= toordinal (current_time sample.fresh))
    by (vm_compute; discriminate).
  split; [reflexivity|]. split; [exact H7|]. split.
  - exact (proj2 (proj2 (proj2 core_operations_succeed)) sample.fresh eq_refl H7).
  - apply (proj1 (proj2 (proj2 core_operations_succeed))). discriminate.
Defined.

Lemma exclusive_appends_numbered_witness :
  chat_messages sample.fresh = [] /\
  Permutation [1; 0]%nat (seq 0 2) /\
  map chat.id (chat_messages
    (snd (threads.run (threads.exclusive [1; 0]%nat)
            (map threads.Pending [sample.hi_alice; sample.yo_bob]) sample.fresh)))
  = ["msg_1"; "msg_2"]%string.
Proof.
  assert (Hperm : Permutation [1; 0]%nat (seq 0 2)) by apply perm_swap.
  split; [reflexivity|]. split; [exact Hperm|].
  exact (proj1 (proj2 (proj1 exclusive_appends_numbered
                         [sample.hi_alice; sample.yo_bob] [1; 0]%nat
                         sample.fresh eq_refl Hperm))).
Defined.

End Witnesses.

(* ================================================================== *)
(** * Requests served in a row *)

Section Requests.
Import scenarios.

(** What serving one request does to the list of messages. *)
Lemma serve_chat_exact (r : api.request) (w : World) :
  chat_messages (api.serve r w)
  = chat_messages w ++
    match r with
    | api.POST_chat_messages message =>
        [ {| chat.base := {| chat.content := chat.content message;
                             chat.sender := chat.sender message |};
             chat.id := ("msg_" ++ str (len (chat_messages w) + 1))%string;
             chat.timestamp := current_time w |} ]
    | _ => []
    end.
Proof.
  destruct r; unfold api.serve, api.dispatch; try (rewrite app_nil_r).
  - apply (keeps_bind _ _ keeps_get_metrics (fun _ => keeps_ret _)).
  - apply (keeps_bind _ _ keeps_get_recovery_chart_data (fun _ => keeps_ret _)).
  - reflexivity.
  - reflexivity.
  - reflexivity.
  - reflexivity.
Qed.

(** What serving one request does to the list of documents. *)
Lemma serve_documents_exact (r : api.request) (w : World) :
  documents (api.serve r w)
  = documents w ++
    match r with
    | api.POST_documents d =>
        [ {| document.base := {| document.title := document.title d;
                                 document.content := document.content d |};
             document.id := ("doc_" ++ str (len (documents w) + 1))%string;
             document.timestamp := current_time w |} ]
    | _ => []
    end.
Proof.
  destruct r; unfold api.serve, api.dispatch; try (rewrite app_nil_r).
  - apply (keeps_bind _ _ keeps_get_metrics (fun _ => keeps_ret _)).
  - apply (keeps_bind _ _ keeps_get_recovery_chart_data (fun _ => keeps_ret _)).
  - reflexivity.
  - reflexivity.
  - reflexivity.
  - reflexivity.
Qed.

Lemma serve_all_bodies (rs : list api.request) :
  forall w : World,
    map chat.base (chat_messages (serve_all rs w))
    = map chat.base (chat_messages w) ++ posted_messages rs
    /\ map document.base (documents (serve_all rs w))
       = map document.base (documents w) ++ posted_documents rs.
Proof.
  induction rs as [|r rs IH]; intros w.
  - cbn. now rewrite !app_nil_r.
  - change (serve_all (r :: rs) w) with (serve_all rs (api.serve r w)).
    destruct (IH (api.serve r w)) as [Hc Hd]. rewrite Hc, Hd.
    rewrite serve_chat_exact, serve_documents_exact, !map_app, <- !app_assoc.
    destruct r as [| | |message| |d]; cbn [map app posted_messages posted_documents];
      rewrite ?app_nil_r; try (split; reflexivity).
    + destruct message. split; reflexivity.
    + destruct d. split; reflexivity.
Qed.

(** X1: after any run of requests, the chat store holds what it held
    before followed by the bodies of the posted messages, in request
    order, and the document store likewise; the next message created gets
    the number of messages before the run plus the number posted plus
    one, whatever reads, metrics, charts and posts to the other store were
    served in between. *)
Theorem requests_fill_stores (rs : list api.request) (w : World) :
  map chat.base (chat_messages (serve_all rs w))
  = map chat.base (chat_messages w) ++ posted_messages rs
  /\ map document.base (documents (serve_all rs w))
     = map document.base (documents w) ++ posted_documents rs
  /\ (forall message,
        exists m w',
          chat_service.create_message message (serve_all rs w) = (Returns m, w')
          /\ chat.id m
             = ("msg_" ++ str (len (chat_messages w)
                                + Z.of_nat (List.length (posted_messages rs)) + 1))%string)
  /\ (forall d,
        exists doc w',
          document_service.create_document d (serve_all rs w) = (Returns doc, w')
          /\ document.id doc
             = ("doc_" ++ str (len (documents w)
                                + Z.of_nat (List.length (posted_documents rs)) + 1))%string).
Proof.
  destruct (serve_all_bodies rs w) as [Hc Hd].
  split; [exact Hc|]. split; [exact Hd|]. split.
  - intros message. rewrite create_message_run. cbv zeta.
    eexists. eexists. split; [reflexivity|]. cbn [chat.id].
    apply (f_equal (@List.length _)) in Hc.
    rewrite length_app, !length_map in Hc. unfold len. rewrite Hc.
    rewrite Nat2Z.inj_add. reflexivity.
  - intros d. rewrite create_document_run. cbv zeta.
    eexists. eexists. split; [reflexivity|]. cbn [document.id].
    apply (f_equal (@List.length _)) in Hd.
    rewrite length_app, !length_map in Hd. unfold len. rewrite Hd.
    rewrite Nat2Z.inj_add. reflexivity.
Qed.

End Requests.

(* ================================================================== *)
(** * The stored timestamps follow the clock *)

Section ClockOrder.
Import spec scenarios.

Lemma keeps_clock_ret {A} (a : A) : keeps_clock (ret a).
Proof. intros w. split; [reflexivity | apply Nat.le_refl]. Qed.

Lemma keeps_clock_raise {A} (e : exn) : keeps_clock (@raise A e).
Proof. intros w. split; [reflexivity | apply Nat.le_refl]. Qed.

Lemma keeps_clock_lift {A} (o : outcome A) : keeps_clock (lift o).
Proof. intros w. split; [reflexivity | apply Nat.le_refl]. Qed.

Lemma keeps_clock_bind {A B} (c : Py A) (k : A -> Py B) :
  keeps_clock c -> (forall a, keeps_clock (k a)) -> keeps_clock (bind c k).
Proof.
  intros Hc Hk w. unfold bind. specialize (Hc w).
  destruct (c w) as [[a | e] w1]; cbn [snd] in *.
  - destruct (Hk a w1) as [H1 H2]. destruct Hc as [H3 H4].
    split; [congruence | lia].
  - exact Hc.
Qed.

Lemma keeps_clock_datetime_now : keeps_clock datetime_now.
Proof. intros w. split; [reflexivity | cbn; lia]. Qed.

Lemma keeps_clock_randint (a b : Z) : keeps_clock (randint a b).
Proof.
  unfold randint, randrange. destruct (0 <? b + 1 - a).
  - apply keeps_clock_bind; [|intros; apply keeps_clock_ret].
    intros w. split; [reflexivity | apply Nat.le_refl].
  - apply keeps_clock_raise.
Qed.

Lemma keeps_clock_for_each {A B} (xs : list A) (body : A -> B -> Py B) (acc : B) :
  (forall x b, keeps_clock (body x b)) -> keeps_clock (for_each xs body acc).
Proof.
  intros Hbody. revert acc. induction xs as [|x xs IH]; intros acc; cbn [for_each].
  - apply keeps_clock_ret.
  - apply keeps_clock_bind; [apply Hbody | exact IH].
Qed.

Lemma keeps_clock_get_metrics : keeps_clock metrics_service.get_metrics.
Proof.
  unfold metrics_service.get_metrics.
  repeat (apply keeps_clock_bind; [apply keeps_clock_randint | intros ?]).
  apply keeps_clock_ret.
Qed.

Lemma keeps_clock_get_recovery_chart_data :
  keeps_clock metrics_service.get_recovery_chart_data.
Proof.
  unfold metrics_service.get_recovery_chart_data.
  apply keeps_clock_bind; [apply keeps_clock_datetime_now | intros today].
  apply keeps_clock_for_each. intros i data. unfold metrics_service.chart_step.
  apply keeps_clock_bind; [apply keeps_clock_lift | intros ?].
  apply keeps_clock_bind; [apply keeps_clock_lift | intros ?].
  apply keeps_clock_bind; [apply keeps_clock_randint | intros ?].
  apply keeps_clock_ret.
Qed.

(** Serving a request changes no reading of the clock and takes back none. *)
Lemma serve_clock (r : api.request) (w : World) :
  wall_clock (api.serve r w) = wall_clock w
  /\ (clock_reads w <= clock_reads (api.serve r w))%nat.
Proof.
  destruct r; unfold api.serve, api.dispatch.
  - apply (keeps_clock_bind _ _ keeps_clock_get_metrics (fun _ => keeps_clock_ret _)).
  - apply (keeps_clock_bind _ _ keeps_clock_get_recovery_chart_data
             (fun _ => keeps_clock_ret _)).
  - split; [reflexivity | apply Nat.le_refl].
  - split; [reflexivity | cbn; lia].
  - split; [reflexivity | apply Nat.le_refl].
  - split; [reflexivity | cbn; lia].
Qed.

Lemma StronglySorted_snoc (l : list nat) (c : nat) :
  StronglySorted lt l -> Forall (fun i => (i < c)%nat) l ->
  StronglySorted lt (l ++ [c]).
Proof.
  induction 1 as [|a l Hs IH Ha]; intros Hall; cbn [app].
  - repeat constructor.
  - inversion Hall as [|? ? Hac Hall']; subst. constructor; [auto|].
    apply Forall_app. split; [exact Ha | repeat constructor; exact Hac].
Qed.

Lemma StronglySorted_nth (l : list nat) :
  StronglySorted lt l ->
  forall p q a b,
    (p < q)%nat -> nth_error l p = Some a -> nth_error l q = Some b -> (a < b)%nat.
Proof.
  induction 1 as [|x l Hs IH Hx]; intros p q a b Hpq Hp Hq.
  - destruct p; discriminate.
  - destruct q as [|q]; [lia|]. cbn [nth_error] in Hq.
    destruct p as [|p]; cbn [nth_error] in Hp.
    + injection Hp as <-. rewrite Forall_forall in Hx.
      apply Hx. eapply nth_error_In. exact Hq.
    + apply (IH p q); auto. lia.
Qed.

(** In every state of the process, the timestamps of each store are
    readings of the clock already taken, at indices that grow along the
    list. *)
Lemma reachable_readings (w : World) :
  api.reachable w ->
  (exists idx,
     map chat.timestamp (chat_messages w) = map (wall_clock w) idx
     /\ StronglySorted lt idx
     /\ Forall (fun i => (i < clock_reads w)%nat) idx)
  /\
  (exists idx,
     map document.timestamp (documents w) = map (wall_clock w) idx
     /\ StronglySorted lt idx
     /\ Forall (fun i => (i < clock_reads w)%nat) idx).
Proof.
  induction 1 as [w Hc Hd | r w Hreach [IHc IHd]].
  - rewrite Hc, Hd. split; exists []; repeat split; constructor.
  - destruct (serve_clock r w) as [Hclock Hreads].
    destruct IHc as (ic & Hic & Hsc & Hfc). destruct IHd as (id & Hid & Hsd & Hfd).
    assert (Hweak : forall l, Forall (fun i => (i < clock_reads w)%nat) l ->
                              Forall (fun i => (i < clock_reads (api.serve r w))%nat) l).
    { intros l. apply Forall_impl. intros i Hi. lia. }
    rewrite Hclock, serve_chat_exact, serve_documents_exact, !map_app, Hic, Hid.
    split.
    + destruct r; try (exists ic; rewrite app_nil_r; auto).
      exists (ic ++ [clock_reads w]). rewrite map_app.
      split; [reflexivity|]. split; [apply StronglySorted_snoc; auto|].
      apply Forall_app. split; [apply Hweak, Hfc|].
      repeat constructor.
    + destruct r; try (exists id; rewrite app_nil_r; auto).
      exists (id ++ [clock_reads w]). rewrite map_app.
      split; [reflexivity|]. split; [apply StronglySorted_snoc; auto|].
      apply Forall_app. split; [apply Hweak, Hfd|].
      repeat constructor.
Qed.

Lemma readings_in_order {A} (timestamp : A -> datetime) (l : list A)
      (clock : nat -> datetime) (idx : list nat) :
  map timestamp l = map clock idx ->
  StronglySorted lt idx ->
  (forall i j, (i <= j)%nat -> datetime_le (clock i) (clock j) = true) ->
  forall p q a b,
    (p <= q)%nat -> nth_error l p = Some a -> nth_error l q = Some b ->
    datetime_le (timestamp a) (timestamp b) = true.
Proof.
  intros Hmap Hsorted Hmono p q a b Hpq Hp Hq.
  assert (Ha : nth_error (map clock idx) p = Some (timestamp a))
    by (rewrite <- Hmap, nth_error_map, Hp; reflexivity).
  assert (Hb : nth_error (map clock idx) q = Some (timestamp b))
    by (rewrite <- Hmap, nth_error_map, Hq; reflexivity).
  rewrite nth_error_map in Ha, Hb.
  destruct (nth_error idx p) as [i|] eqn:Ei; [|discriminate].
  destruct (nth_error idx q) as [j|] eqn:Ej; [|discriminate].
  injection Ha as <-. injection Hb as <-. apply Hmono.
  destruct (Nat.eq_dec p q) as [-> | Hne].
  - rewrite Ei in Ej. injection Ej as <-. apply Nat.le_refl.
  - apply Nat.lt_le_incl. apply (StronglySorted_nth idx Hsorted p q); auto. lia.
Qed.

(** X2: in every state reached from empty stores by serving requests, if
    the clock never steps backwards then each store lists its records in
    the order of their timestamps: a record at an earlier position has a
    timestamp no later than one at a later position. *)
Theorem stores_in_timestamp_order (w : World) :
  api.reachable w ->
  clock_monotone w ->
  (forall p q a b,
     (p <= q)%nat ->
     nth_error (chat_messages w) p = Some a ->
     nth_error (chat_messages w) q = Some b ->
     datetime_le (chat.timestamp a) (chat.timestamp b) = true)
  /\
  (forall p q a b,
     (p <= q)%nat ->
     nth_error (documents w) p = Some a ->
     nth_error (documents w) q = Some b ->
     datetime_le (document.timestamp a) (document.timestamp b) = true).
Proof.
  intros Hreach Hmono.
  destruct (reachable_readings w Hreach) as
    [(ic & Hic & Hsc & _) (id & Hid & Hsd & _)].
  split.
  - exact (readings_in_order _ _ _ ic Hic Hsc Hmono).
  - exact (readings_in_order _ _ _ id Hid Hsd Hmono).
Qed.

Lemma stores_in_timestamp_order_witness :
  let w := scenarios.serve_all
             [api.POST_chat_messages sample.hi_alice; api.GET_recovery_chart;
              api.POST_documents sample.notes; api.POST_chat_messages sample.yo_bob]
             sample.fresh in
  api.reachable w /\ clock_monotone w /\
  forall p q a b,
    (p <= q)%nat ->
    nth_error (chat_messages w) p = Some a ->
    nth_error (chat_messages w) q = Some b ->
    datetime_le (chat.timestamp a) (chat.timestamp b) = true.
Proof.
  intros w.
  assert (Hreach : api.reachable w).
  { repeat apply api.reachable_serve. apply api.reachable_start; reflexivity. }
  assert (Hmono : clock_monotone w).
  { intros i j Hij. apply sample_clock_monotone. exact Hij. }
  split; [exact Hreach|]. split; [exact Hmono|].
  exact (proj1 (stores_in_timestamp_order w Hreach Hmono)).
Defined.

End ClockOrder.

(* ================================================================== *)
(** * Which values the generator functions can return *)

Section Attained.
Import metrics metrics_service scenarios.

Lemma replay_sound (vals : list Z) (w : World) :
  rng_sound (with_generator w (replay vals)).
Proof.
  intros k n Hn. cbn [random_stream with_generator]. unfold replay.
  destruct ((0 <=? nth k vals 0) && (nth k vals 0 <? n)) eqn:E; [|lia].
  apply andb_true_iff in E. rewrite Z.leb_le, Z.ltb_lt in E. exact E.
Qed.

Lemma replay_in_range (vals : list Z) (k : nat) (n : Z) :
  0 <= nth k vals 0 < n -> replay vals k n = nth k vals 0.
Proof.
  intros H. unfold replay.
  replace ((0 <=? nth k vals 0) && (nth k vals 0 <? n)) with true; [reflexivity|].
  symmetry. apply andb_true_iff. rewrite Z.leb_le, Z.ltb_lt. exact H.
Qed.

(** X3: the documented intervals of [get_metrics] are exact: every
    [Metrics] whose fields lie in their intervals is what [get_metrics]
    returns for some generator that honours its contract, in any state of
    the stores and the clock. *)
Theorem get_metrics_attains (w : World) (m : Metrics) :
  spec.metrics_in_range m ->
  exists g,
    rng_sound (with_generator w g)
    /\ fst (get_metrics (with_generator w g)) = Returns m.
Proof.
  intros (Hr & Hm & Hp & He & Hs).
  exists (replay [recovery_score m - 70; mobility_score m - 60; pain_level m - 1;
                  exercises_completed m - 3; streak_days m - 1]).
  split; [apply replay_sound|].
  rewrite get_metrics_run. cbn [fst random_stream random_draws with_generator].
  rewrite !replay_in_range by (cbn [nth Nat.add]; lia).
  cbn [nth Nat.add]. destruct m as [r mo p e s].
  cbn [recovery_score mobility_score pain_level exercises_completed streak_days].
  f_equal. f_equal; lia.
Qed.

Lemma get_metrics_attains_witness :
  let m := {| recovery_score := 95; mobility_score := 60; pain_level := 5;
              exercises_completed := 3; streak_days := 10 |} in
  spec.metrics_in_range m /\
  exists g,
    rng_sound (with_generator sample.fresh g)
    /\ fst (get_metrics (with_generator sample.fresh g)) = Returns m.
Proof.
  intros m.
  assert (Hm : spec.metrics_in_range m) by (unfold spec.metrics_in_range; cbn; lia).
  split; [exact Hm|]. exact (get_metrics_attains sample.fresh m Hm).
Defined.

(** X4: the interval of the chart scores is exact: for a clock reading
    from which the chart can be computed, every list of seven scores in
    [[65, 95]] is what [get_recovery_chart_data] returns, in that order,
    for some generator that honours its contract. *)
Theorem chart_scores_attain (w : World) (scores : list Z) :
  valid (current_time w) = true ->
  7 <= toordinal (current_time w) ->
  List.length scores = 7%nat ->
  Forall (fun s => 65 <= s <= 95) scores ->
  exists g data w',
    rng_sound (with_generator w g)
    /\ get_recovery_chart_data (with_generator w g) = (Returns data, w')
    /\ map score data = scores.
Proof.
  intros Hv H7 Hlen Hall.
  exists (replay (map (fun s => s - 65) scores)).
  eexists. eexists. split; [apply replay_sound|].
  split; [apply get_recovery_chart_data_run; assumption|].
  rewrite map_map. cbn [score random_stream random_draws with_generator].
  destruct scores as [|s0 [|s1 [|s2 [|s3 [|s4 [|s5 [|s6 [|]]]]]]]]; try discriminate.
  repeat match goal with
         | H : Forall _ (_ :: _) |- _ => inversion H; clear H; subst
         end.
  cbn [seq map].
  rewrite !replay_in_range by (cbn [nth Nat.add map]; lia).
  cbn [nth Nat.add map]. repeat f_equal; lia.
Qed.

Lemma chart_scores_attain_witness :
  valid (current_time sample.fresh) = true /\
  7 <= toordinal (current_time sample.fresh) /\
  exists g data w',
    rng_sound (with_generator sample.fresh g)
    /\ get_recovery_chart_data (with_generator sample.fresh g) = (Returns data, w')
    /\ map score data = [65; 95; 80; 65; 95; 70; 90].
Proof.
  assert (H7 : 7 <= toordinal (current_time sample.fresh))
    by (vm_compute; discriminate).
  split; [reflexivity|]. split; [exact H7|].
  apply (chart_scores_attain sample.fresh [65; 95; 80; 65; 95; 70; 90] eq_refl H7 eq_refl).
  repeat constructor; lia.
Defined.

(** X5: the dates of the chart depend on the calendar date of the clock
    reading alone, not on its time of day, the generator or the stores; the
    scores depend on the generator alone. *)
Theorem chart_depends_on (w1 w2 : World) :
  valid (current_time w1) = true ->
  valid (current_time w2) = true ->
  7 <= toordinal (current_time w1) ->
  date_of (current_time w1) = date_of (current_time w2) ->
  exists d1 d2 w1' w2',
    get_recovery_chart_data w1 = (Returns d1, w1')
    /\ get_recovery_chart_data w2 = (Returns d2, w2')
    /\ map date d1 = map date d2
    /\ ((forall k n, random_stream w1 (k + random_draws w1) n
                     = random_stream w2 (k + random_draws w2) n) ->
        map score d1 = map score d2).
Proof.
  intros Hv1 Hv2 H7 Hdate.
  assert (Hord : toordinal (current_time w2) = toordinal (current_time w1)).
  { unfold toordinal. unfold date_of in Hdate. injection Hdate as -> -> ->.
    reflexivity. }
  eexists. eexists. eexists. eexists.
  split; [apply get_recovery_chart_data_run; assumption|].
  split; [apply get_recovery_chart_data_run; [assumption | rewrite Hord; exact H7]|].
  rewrite !map_map. cbn [date score]. rewrite Hord. split; [reflexivity|].
  intros Hsame. apply map_ext. intros i. now rewrite Hsame.
Qed.

Lemma chart_depends_on_witness :
  let w2 := api.serve (api.POST_chat_messages sample.hi_alice) sample.fresh in
  valid (current_time sample.fresh) = true /\
  valid (current_time w2) = true /\
  7 <= toordinal (current_time sample.fresh) /\
  date_of (current_time sample.fresh) = date_of (current_time w2) /\
  exists d1 d2 w1' w2',
    get_recovery_chart_data sample.fresh = (Returns d1, w1')
    /\ get_recovery_chart_data w2 = (Returns d2, w2')
    /\ map date d1 = map date d2.
Proof.
  intros w2.
  assert (H7 : 7 <= toordinal (current_time sample.fresh))
    by (vm_compute; discriminate).
  split; [reflexivity|]. split; [reflexivity|]. split; [exact H7|].
  split; [reflexivity|].
  destruct (chart_depends_on sample.fresh w2 eq_refl eq_refl H7 eq_refl)
    as (d1 & d2 & w1' & w2' & H1 & H2 & Hd & _).
  exists d1, d2, w1', w2'. auto.
Defined.

Lemma datetime_sub_days_underflow (today : datetime) (k : Z) :
  valid today = true ->
  toordinal today <= k <= 999999999 ->
  datetime_sub today {| days := k; seconds := 0; microseconds := 0 |}
  = Raises (OverflowError "result out of range").
Proof.
  intros Hv Hk. pose proof (toordinal_bounds today Hv) as Hord.
  destruct (valid_fields today Hv) as (_ & _ & Hh & Hmi & Hs & Hus).
  unfold _MAXORDINAL in Hord.
  unfold datetime_sub, timedelta_neg. cbn [days seconds microseconds].
  rewrite timedelta_new_normal by lia. cbn [obind].
  unfold datetime_add.
  rewrite (timedelta_new_normal (toordinal today)) by lia. cbn [obind].
  unfold timedelta_add. cbn [days seconds microseconds].
  rewrite timedelta_new_normal by lia.
  cbn [obind days seconds microseconds].
  rewrite (divmod_unique _ 3600 (hour today)
             (minute today * 60 + second today)) by lia.
  rewrite (divmod_unique _ 60 (minute today) (second today)) by lia.
  replace (0 <? toordinal today + - k) with false
    by (symmetry; apply Z.ltb_ge; lia).
  reflexivity.
Qed.

(** X6: [get_recovery_chart_data] succeeds exactly when six days before
    the clock reading is still in the calendar.  For a reading before
    0001-01-07 it raises [OverflowError] in the first turn of its loop: the
    clock has been read once, no number has been drawn and nothing is
    returned. *)
Theorem chart_overflow_edge (w : World) :
  valid (current_time w) = true ->
  (7 <= toordinal (current_time w) ->
   exists data w',
     get_recovery_chart_data w = (Returns data, w') /\ List.length data = 7%nat)
  /\
  (toordinal (current_time w) < 7 ->
   get_recovery_chart_data w
   = (Raises (OverflowError "result out of range"),
      {| chat_messages := chat_messages w;
         documents := documents w;
         wall_clock := wall_clock w;
         clock_reads := S (clock_reads w);
         random_stream := random_stream w;
         random_draws := random_draws w |})).
Proof.
  intros Hv. split.
  - intros H7. rewrite get_recovery_chart_data_run by assumption.
    eexists. eexists. split; reflexivity.
  - intros H7. unfold get_recovery_chart_data, bind, datetime_now.
    change (range 7) with (0 :: [1; 2; 3; 4; 5; 6]).
    cbn [for_each]. unfold bind at 1. unfold chart_step at 1.
    unfold bind at 1. unfold bind at 1. unfold lift.
    rewrite timedelta_days by lia.
    rewrite datetime_sub_days_underflow by (auto; lia).
    reflexivity.
Qed.

Lemma chart_overflow_edge_witness :
  valid (current_time early) = true /\
  toordinal (current_time early) < 7 /\
  fst (get_recovery_chart_data early) = Raises (OverflowError "result out of range").
Proof.
  assert (H7 : toordinal (current_time early) < 7) by reflexivity.
  split; [reflexivity|]. split; [exact H7|].
  rewrite (proj2 (chart_overflow_edge early eq_refl) H7). reflexivity.
Defined.

End Attained.

(* ================================================================== *)
(** * Calls under any schedule *)

Section AnySchedule.
Import chat chat_service threads scenarios.

Lemma update_same {A} (l : list A) (i : nat) (x : A) :
  nth_error l i = Some x -> update l i x = l.
Proof.
  revert i. induction l as [|y l IH]; intros [|i] H; cbn [update nth_error] in *;
    try discriminate.
  - injection H as ->. reflexivity.
  - now rewrite IH.
Qed.

Lemma map_message_of_update (calls : list call) (t : nat) (c c' : call) :
  nth_error calls t = Some c ->
  message_of c' = message_of c ->
  map message_of (update calls t c') = map message_of calls.
Proof.
  revert t. induction calls as [|y calls IH]; intros [|t] Ht Hm;
    cbn [update nth_error map] in *; try discriminate.
  - injection Ht as ->. now rewrite Hm.
  - now rewrite (IH t).
Qed.

Lemma filter_update_same (calls : list call) (t : nat) (c c' : call) :
  nth_error calls t = Some c ->
  finished c' = finished c ->
  message_of c' = message_of c ->
  map message_of (filter finished (update calls t c'))
  = map message_of (filter finished calls).
Proof.
  revert t. induction calls as [|y calls IH]; intros [|t] Ht Hf Hm;
    cbn [update nth_error filter] in *; try discriminate.
  - injection Ht as ->. rewrite Hf. destruct (finished c); cbn [map]; congruence.
  - destruct (finished y); cbn [map]; now rewrite (IH t).
Qed.

Lemma filter_update_finish (calls : list call) (t : nat) (c c' : call) :
  nth_error calls t = Some c ->
  finished c = false ->
  finished c' = true ->
  Permutation (map message_of (filter finished (update calls t c')))
              (message_of c' :: map message_of (filter finished calls)).
Proof.
  revert t. induction calls as [|y calls IH]; intros [|t] Ht Hf Hf';
    cbn [update nth_error filter] in *; try discriminate.
  - injection Ht as ->. rewrite Hf, Hf'. reflexivity.
  - destruct (finished y); cbn [map].
    + rewrite (IH t Ht Hf Hf'). apply perm_swap.
    + apply (IH t Ht Hf Hf').
Qed.

(** One step of a call keeps the body it carries; it appends nothing, or
    it finishes the call and appends its message. *)
Lemma step_accounts (c : call) (w : World) :
  exists c' w' new,
    step c w = (Returns c', w')
    /\ message_of c' = message_of c
    /\ chat_messages w' = chat_messages w ++ new
    /\ ((finished c' = finished c /\ new = [])
        \/ (finished c = false /\ finished c' = true
            /\ map base new = [message_of c'])).
Proof.
  destruct c as [message | m | m].
  - eexists. eexists. exists []. split; [reflexivity|].
    cbn [message_of base chat_messages finished]. rewrite app_nil_r.
    destruct message. repeat split. left. split; reflexivity.
  - eexists. eexists. exists [m]. split; [reflexivity|].
    cbn [message_of chat_messages finished map]. repeat split.
    right. repeat split.
  - eexists. eexists. exists []. split; [reflexivity|].
    cbn [message_of chat_messages finished]. rewrite app_nil_r.
    repeat split. left. split; reflexivity.
Qed.

(** Whatever the schedule: the calls keep their bodies, the store is only
    appended to, and the finished calls are the ones whose messages have
    been appended since. *)
Lemma run_accounts (schedule : list nat) :
  forall (calls : list call) (w : World),
    map message_of (fst (run schedule calls w)) = map message_of calls
    /\ exists new,
         chat_messages (snd (run schedule calls w)) = chat_messages w ++ new
         /\ Permutation
              (map message_of (filter finished (fst (run schedule calls w))))
              (map message_of (filter finished calls) ++ map base new).
Proof.
  induction schedule as [|t rest IH]; intros calls w; cbn [run].
  - split; [reflexivity|]. exists []. cbn. now rewrite !app_nil_r.
  - destruct (nth_error calls t) as [c|] eqn:Ht.
    2:{ apply IH. }
    destruct (step_accounts c w) as (c' & w' & new & Hstep & Hm & Hchat & Hcase).
    rewrite Hstep.
    destruct (IH (update calls t c') w') as (Hmap & new' & Hchat' & Hperm).
    split.
    + rewrite Hmap. apply (map_message_of_update calls t c c' Ht Hm).
    + exists (new ++ new'). split.
      * rewrite Hchat', Hchat, app_assoc. reflexivity.
      * rewrite Hperm, map_app.
        destruct Hcase as [[Hf ->] | (Hf & Hf' & Hnew)].
        -- rewrite (filter_update_same calls t c c' Ht Hf Hm). reflexivity.
        -- rewrite (filter_update_finish calls t c c' Ht Hf Hf'), Hnew.
           cbn [app]. apply Permutation_middle.
Qed.

Lemma filter_all {A} (f : A -> bool) (l : list A) :
  forallb f l = true -> filter f l = l.
Proof.
  induction l as [|x l IH]; cbn [forallb filter]; [reflexivity|].
  intros H. apply andb_true_iff in H. destruct H as [Hx Hl].
  rewrite Hx, IH by exact Hl. reflexivity.
Qed.

Lemma map_message_of_pending (messages : list ChatMessageCreate) :
  map message_of (map Pending messages) = messages.
Proof. rewrite map_map. cbn [message_of]. apply map_id. Qed.

Lemma filter_pending (messages : list ChatMessageCreate) :
  filter finished (map Pending messages) = [].
Proof. induction messages as [|m ms IH]; cbn; auto. Qed.

(** X7: whatever the schedule, interleaved or not, no message is lost and
    none is stored twice: the store is only appended to, the messages
    appended are those of the calls that have finished, and once all calls
    have finished they are the bodies of all the calls, each once, in some
    order. *)
Theorem no_message_lost (messages : list ChatMessageCreate) (schedule : list nat)
        (w : World) :
  exists new,
    chat_messages (snd (run schedule (map Pending messages) w))
    = chat_messages w ++ new
    /\ Permutation (map base new)
         (map message_of
            (filter finished (fst (run schedule (map Pending messages) w))))
    /\ (forallb finished (fst (run schedule (map Pending messages) w)) = true ->
        Permutation (map base new) messages
        /\ List.length new = List.length messages).
Proof.
  destruct (run_accounts schedule (map Pending messages) w)
    as (Hmap & new & Hchat & Hperm).
  rewrite filter_pending in Hperm. cbn [map app] in Hperm.
  exists new. split; [exact Hchat|]. split; [symmetry; exact Hperm|].
  intros Hall. rewrite (filter_all _ _ Hall), Hmap, map_message_of_pending in Hperm.
  split; [symmetry; exact Hperm|].
  rewrite <- (length_map base new). symmetry. apply Permutation_length. exact Hperm.
Qed.

Lemma no_message_lost_witness :
  forallb finished
    (fst (run [0; 1; 0; 1]%nat (map Pending [sample.hi_alice; sample.yo_bob])
              sample.fresh)) = true
  /\ exists new,
       chat_messages
         (snd (run [0; 1; 0; 1]%nat (map Pending [sample.hi_alice; sample.yo_bob])
                   sample.fresh)) = new
       /\ Permutation (map base new) [sample.hi_alice; sample.yo_bob].
Proof.
  split; [reflexivity|].
  destruct (no_message_lost [sample.hi_alice; sample.yo_bob] [0; 1; 0; 1]%nat
                            sample.fresh) as (new & Hchat & _ & Hall).
  exists new. split; [exact Hchat|]. exact (proj1 (Hall eq_refl)).
Defined.

(** The ids of the store and of the records built but not yet appended
    never run ahead of the positions. *)
Lemma step_ids (t : nat) (calls : list call) (c : call) (w : World) :
  nth_error calls t = Some c ->
  (forall p m, nth_error (chat_messages w) p = Some m ->
               exists k, (1 <= k <= S p)%nat /\ id m = msg_id k) ->
  (forall t' m, nth_error calls t' = Some (Built m) ->
                exists k, (1 <= k <= S (List.length (chat_messages w)))%nat
                          /\ id m = msg_id k) ->
  exists c' w',
    step c w = (Returns c', w')
    /\ (forall p m, nth_error (chat_messages w') p = Some m ->
                    exists k, (1 <= k <= S p)%nat /\ id m = msg_id k)
    /\ (forall t' m, nth_error (update calls t c') t' = Some (Built m) ->
                     exists k, (1 <= k <= S (List.length (chat_messages w')))%nat
                               /\ id m = msg_id k).
Proof.
  intros Ht Hstore Hbuilt.
  assert (Hlt : (t < List.length calls)%nat) by (apply nth_error_Some; congruence).
  destruct c as [message | m | m].
  - eexists. eexists. split; [reflexivity|]. cbn [chat_messages].
    split; [exact Hstore|]. intros t' m' Hm'.
    destruct (Nat.eq_dec t t') as [<- | Hne].
    + rewrite nth_error_update_eq in Hm' by exact Hlt. injection Hm' as <-.
      exists (S (List.length (chat_messages w))). split; [lia|].
      cbn [id]. unfold msg_id, len. rewrite Nat2Z.inj_succ. reflexivity.
    + rewrite nth_error_update_neq in Hm' by exact Hne. eauto.
  - eexists. eexists. split; [reflexivity|]. cbn [chat_messages]. split.
    + intros p m' Hp.
      destruct (Nat.lt_ge_cases p (List.length (chat_messages w))) as [Hlo | Hhi].
      * rewrite nth_error_app1 in Hp by exact Hlo. eauto.
      * rewrite nth_error_app2 in Hp by exact Hhi.
        destruct (p - List.length (chat_messages w))%nat as [|d] eqn:Ed;
          [|destruct d; discriminate].
        injection Hp as <-. destruct (Hbuilt t m Ht) as (k & Hk & Hid).
        exists k. split; [lia | exact Hid].
    + intros t' m' Hm'. rewrite length_app. cbn [List.length].
      destruct (Nat.eq_dec t t') as [<- | Hne].
      * rewrite nth_error_update_eq in Hm' by exact Hlt. discriminate.
      * rewrite nth_error_update_neq in Hm' by exact Hne.
        destruct (Hbuilt t' m' Hm') as (k & Hk & Hid). exists k. split; [lia|auto].
  - eexists. eexists. split; [reflexivity|]. cbn [chat_messages].
    split; [exact Hstore|]. rewrite update_same by exact Ht. exact Hbuilt.
Qed.

Lemma run_ids (schedule : list nat) :
  forall (calls : list call) (w : World),
    (forall p m, nth_error (chat_messages w) p = Some m ->
                 exists k, (1 <= k <= S p)%nat /\ id m = msg_id k) ->
    (forall t m, nth_error calls t = Some (Built m) ->
                 exists k, (1 <= k <= S (List.length (chat_messages w)))%nat
                           /\ id m = msg_id k) ->
    forall p m,
      nth_error (chat_messages (snd (run schedule calls w))) p = Some m ->
      exists k, (1 <= k <= S p)%nat /\ id m = msg_id k.
Proof.
  induction schedule as [|t rest IH]; intros calls w Hstore Hbuilt; cbn [run].
  - exact Hstore.
  - destruct (nth_error calls t) as [c|] eqn:Ht; [|apply IH; assumption].
    destruct (step_ids t calls c w Ht Hstore Hbuilt)
      as (c' & w' & Hstep & Hstore' & Hbuilt').
    rewrite Hstep. apply IH; assumption.
Qed.

(** X8: whatever the schedule, on a store that was empty the message at
    position [p] (counted from 1) has an id ["msg_k"] with [1 <= k <= p]:
    interleaved calls can repeat an id, but no id runs ahead of its
    position, and the first message stored is always ["msg_1"]. *)
Theorem ids_never_ahead (messages : list ChatMessageCreate) (schedule : list nat)
        (w : World) :
  chat_messages w = [] ->
  (forall p m,
     nth_error (chat_messages (snd (run schedule (map Pending messages) w))) p
     = Some m ->
     exists k, (1 <= k <= S p)%nat /\ id m = msg_id k)
  /\
  (forall m,
     nth_error (chat_messages (snd (run schedule (map Pending messages) w))) 0
     = Some m ->
     id m = "msg_1"%string).
Proof.
  intros Hempty.
  assert (H : forall p m,
    nth_error (chat_messages (snd (run schedule (map Pending messages) w))) p
    = Some m ->
    exists k, (1 <= k <= S p)%nat /\ id m = msg_id k).
  { apply run_ids.
    - rewrite Hempty. intros [|p] m Hm; discriminate.
    - intros t m Hm. rewrite nth_error_map in Hm.
      destruct (nth_error messages t); discriminate. }
  split; [exact H|].
  intros m Hm. destruct (H 0%nat m Hm) as (k & Hk & Hid).
  assert (k = 1%nat) as -> by lia. exact Hid.
Qed.

Lemma ids_never_ahead_witness :
  chat_messages sample.fresh = [] /\
  forall m,
    nth_error
      (chat_messages
         (snd (run [1; 0; 1; 0]%nat (map Pending [sample.hi_alice; sample.yo_bob])
                   sample.fresh))) 0 = Some m ->
    id m = "msg_1"%string.
Proof.
  split; [reflexivity|].
  exact (proj2 (ids_never_ahead [sample.hi_alice; sample.yo_bob] [1; 0; 1; 0]%nat
                                sample.fresh eq_refl)).
Defined.

End AnySchedule.

(* ================================================================== *)
(** * The dates of the chart as text *)

Section DateText.
Import metrics metrics_service.

Lemma digit_inj (a b : Z) : spec.digit a = spec.digit b -> a mod 10 = b mod 10.
Proof.
  unfold spec.digit. intros H. apply (f_equal nat_of_ascii) in H.
  pose proof (Z.mod_pos_bound a 10 ltac:(lia)).
  pose proof (Z.mod_pos_bound b 10 ltac:(lia)).
  rewrite !nat_ascii_embedding in H by lia. lia.
Qed.

(** Within the calendar, the text [YYYY-MM-DD] names one date only. *)
Lemma iso_date_inj (d1 d2 : Z * Z * Z) :
  (let '(y, m, d) := d1 in 0 <= y <= 9999 /\ 0 <= m <= 99 /\ 0 <= d <= 99) ->
  (let '(y, m, d) := d2 in 0 <= y <= 9999 /\ 0 <= m <= 99 /\ 0 <= d <= 99) ->
  spec.iso_date d1 = spec.iso_date d2 -> d1 = d2.
Proof.
  destruct d1 as [[y1 m1] dd1], d2 as [[y2 m2] dd2].
  intros (Hy1 & Hm1 & Hd1) (Hy2 & Hm2 & Hd2) H. unfold spec.iso_date in H.
  injection H as Ha Hb Hc Hd He Hf Hg Hh.
  apply digit_inj in Ha, Hb, Hc, Hd, He, Hf, Hg, Hh.
  assert (y1 = y2) by (Z.div_mod_to_equations; lia).
  assert (m1 = m2) by (Z.div_mod_to_equations; lia).
  assert (dd1 = dd2) by (Z.div_mod_to_equations; lia).
  congruence.
Qed.

Lemma NoDup_map_injective_on {A B} (f : A -> B) (l : list A) :
  (forall a b, In a l -> In b l -> f a = f b -> a = b) ->
  NoDup l -> NoDup (map f l).
Proof.
  intros Hinj Hnodup. induction Hnodup as [|a l Hnotin Hnodup IH]; cbn [map];
    constructor.
  - rewrite in_map_iff. intros (b & Hb & Hin).
    apply Hinj in Hb; [subst b; contradiction | now right | now left].
  - apply IH. intros x y Hx Hy. apply Hinj; now right.
Qed.

(** X9: the seven date texts of a chart are pairwise distinct. *)
Theorem chart_dates_distinct (w : World) :
  valid (current_time w) = true ->
  7 <= toordinal (current_time w) ->
  exists data w',
    get_recovery_chart_data w = (Returns data, w')
    /\ NoDup (map date data).
Proof.
  intros Hv H7. rewrite get_recovery_chart_data_run by assumption.
  eexists. eexists. split; [reflexivity|].
  rewrite map_map. cbn [date].
  apply NoDup_map_injective_on; [|apply seq_NoDup].
  intros i j Hi Hj Heq. apply in_seq in Hi, Hj.
  pose proof (ord2ymd_before (current_time w) (6 - Z.of_nat i) Hv ltac:(lia)) as Bi.
  pose proof (ord2ymd_before (current_time w) (6 - Z.of_nat j) Hv ltac:(lia)) as Bj.
  pose proof (ymd2ord_ord2ymd (toordinal (current_time w) - (6 - Z.of_nat i))
                ltac:(lia)) as Oi.
  pose proof (ymd2ord_ord2ymd (toordinal (current_time w) - (6 - Z.of_nat j))
                ltac:(lia)) as Oj.
  apply iso_date_inj in Heq.
  - rewrite Heq in Oi.
    destruct (_ord2ymd (toordinal (current_time w) - (6 - Z.of_nat j)))
      as [[y m] d].
    destruct Oi as (_ & _ & Oi). destruct Oj as (_ & _ & Oj). lia.
  - destruct (_ord2ymd (toordinal (current_time w) - (6 - Z.of_nat i)))
      as [[y m] d]. lia.
  - destruct (_ord2ymd (toordinal (current_time w) - (6 - Z.of_nat j)))
      as [[y m] d]. lia.
Qed.

Lemma chart_dates_distinct_witness :
  valid (current_time sample.fresh) = true /\
  7 <= toordinal (current_time sample.fresh) /\
  exists data w',
    get_recovery_chart_data sample.fresh = (Returns data, w')
    /\ NoDup (map date data).
Proof.
  assert (H7 : 7 <= toordinal (current_time sample.fresh))
    by (vm_compute; discriminate).
  split; [reflexivity|]. split; [exact H7|].
  exact (chart_dates_distinct sample.fresh eq_refl H7).
Defined.

End DateText.

(* ================================================================== *)
(** * The chart from one day to the next, and what requests consume *)

Section ChartWindow.
Import metrics metrics_service.

Lemma toordinal_next_day (t1 t2 : datetime) :
  valid t1 = true ->
  date_of t2 = spec.next_day (date_of t1) ->
  toordinal t2 = toordinal t1 + 1.
Proof.
  intros Hv Hnext. destruct (valid_fields t1 Hv) as (_ & Hdate & _).
  unfold date_of in *.
  pose proof (next_day_ordinal _ _ _ Hdate) as H. rewrite <- Hnext in H.
  unfold toordinal. apply H.
Qed.

(** X11: the chart of the next day is the chart of the day shifted by one:
    its first six dates are the last six dates of the day before, followed
    by the new current date. *)
Theorem chart_slides (w1 w2 : World) :
  valid (current_time w1) = true ->
  valid (current_time w2) = true ->
  7 <= toordinal (current_time w1) ->
  date_of (current_time w2) = spec.next_day (date_of (current_time w1)) ->
  exists d1 d2 w1' w2',
    get_recovery_chart_data w1 = (Returns d1, w1')
    /\ get_recovery_chart_data w2 = (Returns d2, w2')
    /\ map date d2
       = tl (map date d1) ++ [spec.iso_date (date_of (current_time w2))].
Proof.
  intros Hv1 Hv2 H7 Hnext.
  pose proof (toordinal_next_day _ _ Hv1 Hnext) as Hord.
  eexists. eexists. eexists. eexists.
  split; [apply get_recovery_chart_data_run; assumption|].
  split; [apply get_recovery_chart_data_run; [assumption | lia]|].
  rewrite !map_map. cbn [date seq map tl app].
  rewrite <- (toordinal_date_of _ Hv2), Hord.
  repeat (f_equal; [f_equal; f_equal; lia|]).
  do 3 f_equal. lia.
Qed.

Lemma chart_slides_witness :
  let w1 := sample.fresh in
  let w2 :=
    {| chat_messages := [];
       documents := [];
       wall_clock := fun _ =>
         {| year := 2025; month := 3; day := 3;
            hour := 0; minute := 0; second := 1; microsecond := 0 |};
       clock_reads := 0;
       random_stream := sample.generator;
       random_draws := 0 |} in
  valid (current_time w1) = true /\
  valid (current_time w2) = true /\
  7 <= toordinal (current_time w1) /\
  date_of (current_time w2) = spec.next_day (date_of (current_time w1)) /\
  exists d1 d2 w1' w2',
    get_recovery_chart_data w1 = (Returns d1, w1')
    /\ get_recovery_chart_data w2 = (Returns d2, w2')
    /\ map date d2
       = tl (map date d1) ++ [spec.iso_date (date_of (current_time w2))].
Proof.
  intros w1 w2.
  assert (H7 : 7 <= toordinal (current_time w1)) by (vm_compute; discriminate).
  split; [reflexivity|]. split; [reflexivity|]. split; [exact H7|].
  split; [reflexivity|].
  exact (chart_slides w1 w2 eq_refl eq_refl H7 eq_refl).
Defined.

(** X10: what serving a request consumes.  No request changes what the
    clock or the generator will return.  A post reads the clock once and
    draws nothing; the metrics draw five numbers and do not read the
    clock; a chart that can be computed reads the clock once and draws
    seven numbers; the two reads consume nothing. *)
Theorem requests_consume (r : api.request) (w : World) :
  valid (current_time w) = true ->
  7 <= toordinal (current_time w) ->
  wall_clock (api.serve r w) = wall_clock w
  /\ random_stream (api.serve r w) = random_stream w
  /\ clock_reads (api.serve r w)
     = (match r with
        | api.GET_recovery_chart | api.POST_chat_messages _
        | api.POST_documents _ => 1
        | _ => 0
        end + clock_reads w)%nat
  /\ random_draws (api.serve r w)
     = (match r with
        | api.GET_metrics => 5
        | api.GET_recovery_chart => 7
        | _ => 0
        end + random_draws w)%nat.
Proof.
  intros Hv H7. destruct r; unfold api.serve, api.dispatch, bind.
  - rewrite get_metrics_run. repeat split.
  - rewrite get_recovery_chart_data_run by assumption. repeat split.
  - repeat split.
  - rewrite create_message_run. repeat split.
  - repeat split.
  - rewrite create_document_run. repeat split.
Qed.

Lemma requests_consume_witness :
  valid (current_time sample.fresh) = true /\
  7 <= toordinal (current_time sample.fresh) /\
  clock_reads (api.serve api.GET_recovery_chart sample.fresh) = 1%nat /\
  random_draws (api.serve api.GET_recovery_chart sample.fresh) = 7%nat.
Proof.
  assert (H7 : 7 <= toordinal (current_time sample.fresh))
    by (vm_compute; discriminate).
  split; [reflexivity|]. split; [exact H7|].
  destruct (requests_consume api.GET_recovery_chart sample.fresh eq_refl H7)
    as (_ & _ & Hc & Hd).
  split; [exact Hc | exact Hd].
Defined.

End ChartWindow.

(* ================================================================== *)
(** * Mutual exclusion is serial execution *)

Section Serial.
Import chat chat_service threads.

Lemma create_messages_cons (message : ChatMessageCreate)
      (ms : list ChatMessageCreate) (w : World) :
  sample.create_messages (message :: ms) w
  = sample.create_messages ms (snd (create_message message w)).
Proof.
  unfold sample.create_messages. cbn [for_each]. unfold bind at 1 2.
  rewrite create_message_run. reflexivity.
Qed.

(** X12: calls that exclude one another leave the process in the state
    that calling [create_message] on their bodies one after another, in
    the order in which the calls run, leaves it in. *)
Theorem exclusive_is_serial (order : list nat) :
  forall (calls : list call) (ms : list ChatMessageCreate) (w : World),
    NoDup order ->
    Forall2 (fun t message => nth_error calls t = Some (Pending message)) order ms ->
    snd (run (exclusive order) calls w) = snd (sample.create_messages ms w).
Proof.
  induction order as [|t order IH]; intros calls ms w Hnodup Hcalls.
  - inversion Hcalls; subst. reflexivity.
  - inversion Hcalls as [|? message ? ms' Ht Hrest]; subst.
    inversion Hnodup as [|? ? Hnotin Hnodup']; subst.
    change (exclusive (t :: order)) with (t :: t :: exclusive order).
    pose proof (run_call_exclusive t (exclusive order) calls message w Ht) as Hrun.
    rewrite create_messages_cons.
    destruct (create_message message w) as [[m | e] w'] eqn:E; [|contradiction].
    rewrite Hrun. cbn [snd]. apply IH; [exact Hnodup'|].
    clear - Hrest Hnotin. induction Hrest as [|t' m' order' ms'' Ht' Hrest' IH'].
    + constructor.
    + constructor.
      * rewrite nth_error_update_neq; [exact Ht'|].
        intros ->. apply Hnotin. now left.
      * apply IH'. intros Hin. apply Hnotin. now right.
Qed.

Lemma exclusive_is_serial_witness :
  NoDup [1; 0]%nat /\
  snd (run (exclusive [1; 0]%nat)
           (map Pending [sample.hi_alice; sample.yo_bob]) sample.fresh)
  = snd (sample.create_messages [sample.yo_bob; sample.hi_alice] sample.fresh).
Proof.
  assert (Hnodup : NoDup [1; 0]%nat).
  { repeat constructor; cbn; intuition discriminate. }
  split; [exact Hnodup|].
  apply (exclusive_is_serial [1; 0]%nat); [exact Hnodup|].
  repeat constructor.
Defined.

End Serial.

(* ================================================================== *)
(** * Timestamps when the clock steps back *)

Section ClockStepsBack.
Import chat chat_service.

(** Both readings of the clock at the end of daylight saving time are
    well-formed datetimes, and the second is earlier than the first. *)
Example fall_back_readings :
  valid (scenarios.fall_back_clock 0) = true
  /\ valid (scenarios.fall_back_clock 1) = true
  /\ datetime_le (scenarios.fall_back_clock 0) (scenarios.fall_back_clock 1) = false.
Proof. repeat split. Qed.

(** C1, as stated, fails: it is not so that on every initially empty store
    the two messages come back with non-decreasing timestamps.  With the
    clock read at 01:59:59.9 and then, after the end of daylight saving
    time, at 01:00:00, the second message is stamped earlier than the
    first. *)
Lemma timestamps_can_decrease :
  ~ (forall w : World,
       chat_messages w = [] ->
       exists m1 m2 l w',
         (m1 <- create_message sample.hi_alice ;;
          m2 <- create_message sample.yo_bob ;;
          l <- get_all_messages ;;
          ret (m1, m2, l)) w = (Returns (m1, m2, l), w')
         /\ l = [m1; m2]
         /\ id m1 = "msg_1"%string /\ id m2 = "msg_2"%string
         /\ datetime_le (timestamp m1) (timestamp m2) = true).
Proof.
  intros H.
  destruct (H scenarios.fall_back eq_refl)
    as (m1 & m2 & l & w' & Hrun & _ & _ & _ & Hle).
  unfold bind in Hrun. rewrite !create_message_run in Hrun.
  cbv zeta beta iota in Hrun. cbn [get_all_messages ret] in Hrun.
  injection Hrun as Hm1 Hm2 _ _. subst m1 m2.
  cbn [timestamp] in Hle. vm_compute in Hle. discriminate Hle.
Qed.

End ClockStepsBack.
